(** * babu-absen: the diff engine, the Worker orchestrator and the Scraper

    A shallow embedding of
    - [src/worker-api/src/application/Worker.ts] (class [Worker]:
      [#getMeetingsDiff], [#getLecturesDiff], [handle]), and
    - the [Scraper] class (constructor, [init], [login], [goToLMS],
      [savePageSnapshots], [cleanUp], [scrape]),
    together with the properties the specification states about them.

    JS arrays are lists; a slot of a lecture array is an [option], [None]
    being JS [undefined] (an out-of-range read yields it and [push] can store
    it).  Collaborators (store, webhook, logger, browser, pages) are modelled
    by a world that records every call in a trace and by fault tables that
    say which calls throw. *)

From stdpp Require Import gmap strings list pretty.
From Stdlib Require Import Sorted.

Set Default Proof Using "Type".

(** ** JS array primitives *)

(** [a[i]] on an array whose slots may be [undefined]: an out-of-range read
    is [undefined]. *)
Definition js_at {A : Type} (a : list (option A)) (i : nat) : option A :=
  default None (a !! i).

(** [a.slice(n)] and [a.slice(0, n)] for [0 <= n]. *)
Definition slice_from {A : Type} (n : nat) (a : list A) : list A := drop n a.
Definition slice_to {A : Type} (n : nat) (a : list A) : list A := take n a.

(** [for (let i = 0; i < n; i++) body], the body transforming the
    accumulated [result]; [continue] is the body returning it unchanged. *)
Definition for_upto {R : Type} (n : nat) (body : R -> nat -> R) (init : R) : R :=
  fold_left body (seq 0 n) init.

(** ** Entities *)

Section Entities.
(** [Lecture] ([~/business/Lecture]) and the display attributes of a
    [Subject] ([~/business/Subject]) are declared outside the files at hand:
    they are parameters. *)
Context {Lecture Attrs : Type}.

(** The fields of a [Meeting] are those of the object literal of
    [Worker.ts] lines 54-58. *)
Record Meeting : Type := mkMeeting {
  subject : string;
  title : string;
  lectures : list (option Lecture)
}.

(** A [Subject]: the two fields [Worker.ts] reads, and the rest, which
    [{...subject, meetings: meetingsDiff}] carries over untouched. *)
Record Subject : Type := mkSubject {
  courseId : string;
  attrs : Attrs;
  meetings : list Meeting
}.

(** [{ ...s, meetings: ms }] *)
Definition with_meetings (s : Subject) (ms : list Meeting) : Subject :=
  {| courseId := courseId s; attrs := attrs s; meetings := ms |}.

(** An entity as the collector and [JSON.parse] of a stored snapshot give
    it: every lecture slot holds a lecture. *)
Definition wf_meeting (m : Meeting) : Prop := Forall is_Some (lectures m).
Definition wf_subject (s : Subject) : Prop := Forall wf_meeting (meetings s).

(** ** The diff engine ([Worker.ts] lines 38-82) *)

(** [compareLecture] and [compareMeeting] are imported from
    [~/business/Lecture] and [~/business/Meeting]; they are parameters
    here, total and boolean.  [compareLecture] is also called on
    [undefined] (line 76 after the out-of-range read of line 75), so it
    takes slots. *)
Variable compareLecture : option Lecture -> option Lecture -> bool.
Variable compareMeeting : Meeting -> Meeting -> bool.

(** Body of the loop of [#getLecturesDiff], lines 74-78. *)
Definition lectures_step (oldMeeting newMeeting : Meeting)
    (result : list (option Lecture)) (i : nat) : list (option Lecture) :=
  let oldLecture := js_at (lectures oldMeeting) i in
  let currentLecture := js_at (lectures newMeeting) i in
  let isEqual := compareLecture oldLecture currentLecture in
  if isEqual then result else result ++ [currentLecture].

Definition getLecturesDiff (oldMeeting newMeeting : Meeting)
    : list (option Lecture) :=
  let oldLength := length (lectures oldMeeting) in
  let newLength := length (lectures newMeeting) in
  let result := [] in
  let result :=
    if oldLength <? newLength
    then result ++ slice_from oldLength (lectures newMeeting)
    else result in
  for_upto (length (lectures oldMeeting))
    (lectures_step oldMeeting newMeeting) result.

(** Body of the loop of [#getMeetingsDiff], lines 49-58.  Both reads are
    in range ([i < slicedMeetings.length <= oldLength]); the last branch
    is never taken (see [meetings_step_in_range]). *)
Definition meetings_step (oldMeetings slicedMeetings : list Meeting)
    (result : list Meeting) (i : nat) : list Meeting :=
  match slicedMeetings !! i, oldMeetings !! i with
  | Some newMeeting, Some oldMeeting =>
      let isEqual := compareMeeting newMeeting oldMeeting in
      let lecturesDiff := getLecturesDiff oldMeeting newMeeting in
      if isEqual && (length lecturesDiff <? 1) then result
      else result ++ [ {| subject := subject newMeeting;
                          title := title newMeeting;
                          lectures := lecturesDiff |} ]
  | _, _ => result
  end.

Definition getMeetingsDiff (oldSubject newSubject : Subject) : list Meeting :=
  let oldLength := length (meetings oldSubject) in
  let newLength := length (meetings newSubject) in
  let result := [] in
  let result :=
    if oldLength <? newLength
    then result ++ slice_from oldLength (meetings newSubject)
    else result in
  let slicedMeetings := slice_to oldLength (meetings newSubject) in
  for_upto (length slicedMeetings)
    (meetings_step (meetings oldSubject) slicedMeetings) result.

(** *** Source indices of the entries of the diff

    The same computation, each entry carrying the index in
    [newSubject.meetings] it was produced from. *)
Definition meetings_step_idx (oldMeetings slicedMeetings : list Meeting)
    (result : list (nat * Meeting)) (i : nat) : list (nat * Meeting) :=
  match meetings_step oldMeetings slicedMeetings [] i with
  | [] => result
  | entries => result ++ map (pair i) entries
  end.

Definition getMeetingsDiffIdx (oldSubject newSubject : Subject)
    : list (nat * Meeting) :=
  let oldLength := length (meetings oldSubject) in
  let newLength := length (meetings newSubject) in
  let result :=
    if oldLength <? newLength
    then zip (seq oldLength (newLength - oldLength))
             (slice_from oldLength (meetings newSubject))
    else [] in
  let slicedMeetings := slice_to oldLength (meetings newSubject) in
  for_upto (length slicedMeetings)
    (meetings_step_idx (meetings oldSubject) slicedMeetings) result.

(** The indices of [newSubject.meetings] in the order their entries appear
    in the diff. *)
Definition diff_indices (oldSubject newSubject : Subject) : list nat :=
  map fst (getMeetingsDiffIdx oldSubject newSubject).

End Entities.

Arguments Meeting : clear implicits.
Arguments Subject : clear implicits.

(** ** Effects: a state-and-exception monad

    A computation takes the world, returns or throws, and leaves a world.
    [await] of a collaborator call is the call itself: a rejected promise is
    a throw at the [await]. *)

Inductive Outcome (E A : Type) : Type :=
| Returned (a : A)
| Threw (e : E).
Arguments Returned {E A} a.
Arguments Threw {E A} e.

Definition M (W E A : Type) : Type := W -> Outcome E A * W.

Definition ret {W E A} (a : A) : M W E A := fun w => (Returned a, w).

Definition throw {W E A} (e : E) : M W E A := fun w => (Threw e, w).

Definition bind {W E A B} (c : M W E A) (k : A -> M W E B) : M W E B :=
  fun w =>
    match c w with
    | (Returned a, w') => k a w'
    | (Threw e, w') => (Threw e, w')
    end.

(** [try { c } catch (err) { handler err }] *)
Definition try_catch {W E A} (c : M W E A) (handler : E -> M W E A) : M W E A :=
  fun w =>
    match c w with
    | (Returned a, w') => (Returned a, w')
    | (Threw e, w') => handler e w'
    end.

Notation "'let*' x ':=' c 'in' k" := (bind c (fun x => k))
  (at level 10, x name, c at level 100, k at level 200).
Notation "'do!' c 'in' k" := (bind c (fun _ => k))
  (at level 10, c at level 100, k at level 200).

(** [Promise.all(items.map(async (x) => task x))] in ONE of its schedules:
    every task run to its end in the order of the array, one after the
    other, a call recorded when it completes.  The program starts all the
    tasks at once and lets them proceed in any order; what depends on that
    order (the order of calls and of writes of different tasks) is stated on
    [await_all] below, which has every schedule, and on this definition
    only what every schedule keeps.  All tasks run whether or not an earlier
    one rejected; the whole rejects with the first rejection. *)
Fixpoint promise_all {W E A} (task : A -> M W E unit) (items : list A)
    : M W E unit :=
  match items with
  | [] => ret tt
  | x :: rest =>
      fun w =>
        match task x w with
        | (Returned _, w') => promise_all task rest w'
        | (Threw e, w') => (Threw e, snd (promise_all task rest w'))
        end
  end.

(** A value a collaborator can throw: an [Error] with its message, or
    anything that is not [instanceof Error]. *)
Inductive Thrown : Type :=
| ErrorObj (message : string)
| NotAnError.

(** ** The Worker ([Worker.ts] lines 84-142) *)

Section WorkerModel.
Context {Lecture Attrs : Type}.
Variable compareLecture : option Lecture -> option Lecture -> bool.
Variable compareMeeting : Meeting Lecture -> Meeting Lecture -> bool.

(** Every call the Worker makes on a collaborator. *)
Inductive WorkerCall : Type :=
| CollectCookies
| FetchSubjectsContent
| CollectSubjects (content : string) (slice_start slice_end : nat)
| LoggerInfo (msg : string)
| LoggerError (msg : string)
| WebhookError (msg : string)
| WebhookNotify (payload : Subject Lecture Attrs)
| StorageGet (key : string)
| StoragePut (key value : string).

(** What [JSON.parse(s) as Subject] evaluates to. *)
Inductive Parsed : Type :=
| ParseThrows (t : Thrown)
| ParsedNull
| ParsedSubject (s : Subject Lecture Attrs).

(** The collaborators: which calls throw (the logger never does), what
    the HTTP client and the collector return, and [JSON]. *)
Record WorkerEnv : Type := mkWorkerEnv {
  throws : WorkerCall -> option Thrown;
  subjectsContent : string;
  collected : string -> nat -> nat -> list (Subject Lecture Attrs);
  JSON_stringify : Subject Lecture Attrs -> string;
  JSON_parse : string -> Parsed
}.

(** [HYSBYSU_STORAGE] and the calls made so far, oldest first. *)
Record WorkerWorld : Type := mkWorkerWorld {
  kv : gmap string string;
  calls : list WorkerCall
}.

Variable env : WorkerEnv.

Local Abbreviation W := (M WorkerWorld Thrown).

Definition record (c : WorkerCall) : W unit :=
  fun w => (Returned tt, {| kv := kv w; calls := calls w ++ [c] |}).

(** A call on a collaborator: recorded, then it throws or goes on. *)
Definition call {A} (c : WorkerCall) (k : W A) : W A :=
  do! record c in
  match throws env c with
  | Some t => throw t
  | None => k
  end.

Definition logger_info (msg : string) : W unit :=
  record (LoggerInfo msg).
Definition logger_error (msg : string) : W unit :=
  record (LoggerError msg).
Definition webhook_error (msg : string) : W unit :=
  call (WebhookError msg) (ret tt).
Definition webhook_notify (payload : Subject Lecture Attrs) : W unit :=
  call (WebhookNotify payload) (ret tt).
Definition storage_get (key : string) : W (option string) :=
  call (StorageGet key) (fun w => (Returned (kv w !! key), w)).
Definition storage_put (key value : string) : W unit :=
  call (StoragePut key value)
    (fun w => (Returned tt, {| kv := <[key := value]> (kv w); calls := calls w |})).
Definition collectCookies : W unit :=
  call CollectCookies (ret tt).
Definition fetchSubjectsContent : W string :=
  call FetchSubjectsContent (ret (subjectsContent env)).
Definition collectSubjects (content : string) (slice_start slice_end : nat)
    : W (list (Subject Lecture Attrs)) :=
  call (CollectSubjects content slice_start slice_end)
    (ret (collected env content slice_start slice_end)).

(** [`subject_${subject.courseId}`] *)
Definition subject_key (subj : Subject Lecture Attrs) : string :=
  "subject_" +:+ courseId subj.

(** The callback of [subjects.map], lines 91-132. *)
Definition diffingTask (subj : Subject Lecture Attrs) : W unit :=
  let* oldSubjectString :=
    try_catch (storage_get (subject_key subj))
      (fun err =>
         match err with
         | ErrorObj message =>
             do! logger_error message in
             do! webhook_error
                   ("Failed to get old data for: " +:+ courseId subj
                    +:+ ". Reason: " +:+ message) in
             ret None
         | NotAnError => ret None
         end) in
  match oldSubjectString with
  | None => ret tt
  | Some oldSubjectString =>
      let* oldSubject :=
        match JSON_parse env oldSubjectString with
        | ParseThrows t => throw t
        | ParsedNull => ret None
        | ParsedSubject s => ret (Some s)
        end in
      do! match oldSubject with
          | Some oldSubject =>
              if (0 <? length (meetings subj))
                 && (0 <? length (meetings oldSubject))
              then
                let meetingsDiff :=
                  getMeetingsDiff compareLecture compareMeeting oldSubject subj in
                if 0 <? length meetingsDiff
                then webhook_notify (with_meetings subj meetingsDiff)
                else ret tt
              else ret tt
          | None => ret tt
          end in
      try_catch
        (storage_put (subject_key subj) (JSON_stringify env subj))
        (fun err =>
           match err with
           | ErrorObj message =>
               do! logger_error message in
               webhook_error
                 ("Failed to save new data for: " +:+ courseId subj
                  +:+ ". Reason: " +:+ message)
           | NotAnError => ret tt
           end)
  end.

(** [handle(options)], lines 84-142. *)
Definition handle (slice_start slice_end : nat) : W unit :=
  do! collectCookies in
  do! logger_info "Fetching cache..." in
  let* subjectsContent := fetchSubjectsContent in
  let* subjects := collectSubjects subjectsContent slice_start slice_end in
  try_catch (promise_all diffingTask subjects)
    (fun err =>
       match err with
       | ErrorObj message =>
           do! logger_error message in
           webhook_error message
       | NotAnError => ret tt
       end).

(** The values [HYSBYSU_STORAGE.put] was called with, oldest first. *)
Definition puts (w : WorkerWorld) : list (string * string) :=
  omap (fun c => match c with StoragePut k v => Some (k, v) | _ => None end)
       (calls w).

End WorkerModel.

Arguments WorkerCall : clear implicits.
Arguments Parsed : clear implicits.
Arguments WorkerEnv : clear implicits.
Arguments WorkerWorld : clear implicits.

(** ** The Scraper *)

(** The double quote, for the selectors. *)
Definition dq : string := String (Ascii.ascii_of_nat 34) EmptyString.

(** [s.slice(-n)]: the last [n] characters of [s], all of [s] when it has
    fewer; [-0] is [0], so [s.slice(-0)] is all of [s]. *)
Definition slice_last (n : nat) (s : string) : string :=
  if n =? 0 then s else String.substring (String.length s - n) n s.

(** What the Scraper throws: its own two errors, or what a collaborator
    threw. *)
Inductive ScraperThrown : Type :=
| ValidationError (field : string)
| NotInitializedError (resource : string)
| Collaborator (t : Thrown).

Record ScraperOptions : Type := mkScraperOptions {
  siakadUrl : string;
  lmsUrl : string;
  nim : string;
  password : string
}.

(** The read-only fields of a constructed [Scraper]; [_page], the one field
    that changes, is in the world.  The four dependencies are the
    collaborators of the world. *)
Record Scraper : Type := mkScraper {
  _siakadUrl : string;
  _lmsUrl : string;
  _nim : string;
  _password : string
}.

Definition USERNAME_INPUT : string := "input[name=" +:+ dq +:+ "username" +:+ dq +:+ "]".
Definition PASSWORD_INPUT : string := "input[name=" +:+ dq +:+ "password" +:+ dq +:+ "]".
Definition LOGIN_BUTTON : string := "button[type=" +:+ dq +:+ "submit" +:+ dq +:+ "]".
Definition GOTO_LMS_BUTTON : string := "a[class=" +:+ dq +:+ "btn btn-sm green" +:+ dq +:+ "]".
Definition LMS_BUTTON : string := "a[alt=" +:+ dq +:+ "Siakad-LMS Connector" +:+ dq +:+ "]".
Definition LECTURE_URL : string := ".gallery_grid_item.md-card-content a".

(** Every call the Scraper makes on a collaborator; a page is named by the
    handle the browser gave for it. *)
Inductive ScraperCall : Type :=
| BrowserGetFirstPage
| BrowserNewPage
| BrowserClose
| PageVisit (p : nat) (url : string)
| PageInsert (p : nat) (selector value : string)
| PageClickButton (p : nat) (selector : string) (useNativeClick : bool)
| PageWaitForNetworkIdle (p : nat)
| PageGetAttributesFromElements (p : nat) (selector attribute : string)
| PageGetContent (p : nat)
| PageClose (p : nat)
| CollectorCollect (html : string)
| AuditPut (key value : string)
| ScraperLoggerInfo (msg : string).

Section ScraperModel.
Context {Lecture : Type}.

(** The collaborators: which calls throw, what a page at a URL shows and
    which attribute values a selector finds on it, the clock, the collector
    and [JSON.stringify] on its result. *)
Record ScraperEnv : Type := mkScraperEnv {
  scraper_throws : ScraperCall -> option Thrown;
  page_content : string -> string;
  page_attributes : string -> string -> string -> list string;
  Date_now : N;
  collect : string -> list (Meeting Lecture);
  stringify_meetings : list (Meeting Lecture) -> string
}.

(** [this._page], the next handle the browser gives, the URL each page
    was last sent to, the audit-trail store, and the calls so far. *)
Record ScraperWorld : Type := mkScraperWorld {
  this_page : option nat;
  fresh_page : nat;
  page_url : gmap nat string;
  audit : gmap string string;
  scraper_calls : list ScraperCall
}.

Variable env : ScraperEnv.

Local Abbreviation SM := (M ScraperWorld ScraperThrown).

Definition srecord (c : ScraperCall) : SM unit :=
  fun w => (Returned tt,
            {| this_page := this_page w; fresh_page := fresh_page w;
               page_url := page_url w; audit := audit w;
               scraper_calls := scraper_calls w ++ [c] |}).

Definition scall {A} (c : ScraperCall) (k : SM A) : SM A :=
  do! srecord c in
  match scraper_throws env c with
  | Some t => throw (Collaborator t)
  | None => k
  end.

Definition get_this_page : SM (option nat) :=
  fun w => (Returned (this_page w), w).

Definition set_this_page (p : option nat) : SM unit :=
  fun w => (Returned tt,
            {| this_page := p; fresh_page := fresh_page w;
               page_url := page_url w; audit := audit w;
               scraper_calls := scraper_calls w |}).

Definition alloc_page : SM nat :=
  fun w => (Returned (fresh_page w),
            {| this_page := this_page w; fresh_page := S (fresh_page w);
               page_url := page_url w; audit := audit w;
               scraper_calls := scraper_calls w |}).

Definition browser_getFirstPage : SM nat := scall BrowserGetFirstPage alloc_page.
Definition browser_newPage : SM nat := scall BrowserNewPage alloc_page.
Definition browser_close : SM unit := scall BrowserClose (ret tt).

Definition page_visit (p : nat) (url : string) : SM unit :=
  scall (PageVisit p url)
    (fun w => (Returned tt,
               {| this_page := this_page w; fresh_page := fresh_page w;
                  page_url := <[p := url]> (page_url w); audit := audit w;
                  scraper_calls := scraper_calls w |})).
Definition page_insert (p : nat) (selector value : string) : SM unit :=
  scall (PageInsert p selector value) (ret tt).
Definition page_clickButton (p : nat) (selector : string) (useNativeClick : bool)
    : SM unit :=
  scall (PageClickButton p selector useNativeClick) (ret tt).
Definition page_waitForNetworkIdle (p : nat) : SM unit :=
  scall (PageWaitForNetworkIdle p) (ret tt).
Definition page_getAttributesFromElements (p : nat) (selector attribute : string)
    : SM (list string) :=
  scall (PageGetAttributesFromElements p selector attribute)
    (fun w => (Returned (page_attributes env (default "" (page_url w !! p))
                           selector attribute), w)).
Definition page_getContent (p : nat) : SM string :=
  scall (PageGetContent p)
    (fun w => (Returned (page_content env (default "" (page_url w !! p))), w)).
Definition page_close (p : nat) : SM unit :=
  scall (PageClose p) (ret tt).
Definition collector_collect (html : string) : SM (list (Meeting Lecture)) :=
  scall (CollectorCollect html) (ret (collect env html)).
Definition audit_put (key value : string) : SM unit :=
  scall (AuditPut key value)
    (fun w => (Returned tt,
               {| this_page := this_page w; fresh_page := fresh_page w;
                  page_url := page_url w; audit := <[key := value]> (audit w);
                  scraper_calls := scraper_calls w |})).
Definition scraper_logger_info (msg : string) : SM unit :=
  srecord (ScraperLoggerInfo msg).

(** The constructor, lines 42-57. *)
Definition construct (options : ScraperOptions) : SM Scraper :=
  if String.length (siakadUrl options) =? 0 then throw (ValidationError "siakadUrl")
  else if String.length (lmsUrl options) =? 0 then throw (ValidationError "lmsUrl")
  else if String.length (nim options) =? 0 then throw (ValidationError "nim")
  else if String.length (password options) =? 0 then throw (ValidationError "password")
  else ret {| _siakadUrl := siakadUrl options;
              _lmsUrl := lmsUrl options;
              _nim := nim options;
              _password := password options |}.

(** [init], lines 62-65. *)
Definition init : SM unit :=
  let* page := get_this_page in
  match page with
  | Some _ => ret tt
  | None =>
      let* p := browser_getFirstPage in
      set_this_page (Some p)
  end.

(** [login], lines 88-95. *)
Definition login (this : Scraper) : SM unit :=
  let* page := get_this_page in
  match page with
  | None => throw (NotInitializedError "this._page")
  | Some p =>
      do! page_visit p (_siakadUrl this) in
      do! page_insert p USERNAME_INPUT (_nim this) in
      do! page_insert p PASSWORD_INPUT (_password this) in
      page_clickButton p LOGIN_BUTTON false
  end.

(** [goToLMS], lines 97-107.  [_browser] is set by the constructor and never
    cleared, so the guard of line 98 does not fire. *)
Definition goToLMS (this : Scraper) : SM unit :=
  let* page := get_this_page in
  match page with
  | None => throw (NotInitializedError "this._page")
  | Some p =>
      do! page_waitForNetworkIdle p in
      do! page_clickButton p LMS_BUTTON false in
      do! page_clickButton p GOTO_LMS_BUTTON true in
      do! page_close p in
      let* fresh := browser_newPage in
      do! set_this_page (Some fresh) in
      page_visit fresh (_lmsUrl this)
  end.

(** [`${timestamp}_${url.slice(-4)}`] *)
Definition snapshot_key (timestamp : N) (url : string) : string :=
  pretty timestamp +:+ "_" +:+ slice_last 4 url.

(** The callback of [urls.map], lines 115-122. *)
Definition snapshotTask (this : Scraper) (timestamp : N) (url : string) : SM unit :=
  let* page := browser_newPage in
  do! page_visit page (_lmsUrl this +:+ url) in
  let* html := page_getContent page in
  let* meetings := collector_collect html in
  do! audit_put (snapshot_key timestamp url) (stringify_meetings env meetings) in
  page_close page.

(** [savePageSnapshots], lines 109-124 (the guard of line 110 does not
    fire, as in [goToLMS]). *)
Definition savePageSnapshots (this : Scraper) : SM unit :=
  let* page := get_this_page in
  match page with
  | None => throw (NotInitializedError "this._page")
  | Some p =>
      let* urls := page_getAttributesFromElements p LECTURE_URL "href" in
      let timestamp := Date_now env in
      promise_all (snapshotTask this timestamp) urls
  end.

(** [cleanUp], lines 83-86. *)
Definition cleanUp : SM unit :=
  do! browser_close in
  set_this_page None.

(** [scrape], lines 70-81. *)
Definition scrape (this : Scraper) : SM unit :=
  do! scraper_logger_info "Initialising..." in
  do! init in
  do! scraper_logger_info "Logging in..." in
  do! login this in
  do! scraper_logger_info "Visiting LMS..." in
  do! goToLMS this in
  do! scraper_logger_info "Saving snapshots..." in
  do! savePageSnapshots this in
  do! scraper_logger_info "Cleaning up..." in
  cleanUp.

(** The values [_storage.put] was called with, oldest first. *)
Definition audit_puts (w : ScraperWorld) : list (string * string) :=
  omap (fun c => match c with AuditPut k v => Some (k, v) | _ => None end)
       (scraper_calls w).

End ScraperModel.

Arguments ScraperEnv : clear implicits.

(** ** The diff as a recursion on the two arrays

    What the two loops compute, by recursion on the old array; the
    [_unfold] lemmas below relate them to the loops. *)

Section Changed.
Context {Lecture : Type}.
Variable compareLecture : option Lecture -> option Lecture -> bool.
Variable compareMeeting : Meeting Lecture -> Meeting Lecture -> bool.

(** What one iteration of the lecture loop pushes. *)
Definition lecture_entry (oldLecture currentLecture : option Lecture)
    : list (option Lecture) :=
  if compareLecture oldLecture currentLecture then [] else [currentLecture].

Fixpoint lectures_changed (olds news : list (option Lecture))
    : list (option Lecture) :=
  match olds with
  | [] => []
  | o :: olds' =>
      lecture_entry o (js_at news 0) ++ lectures_changed olds' (tail news)
  end.

(** What one iteration of the meeting loop pushes. *)
Definition meeting_entry (oldMeeting newMeeting : Meeting Lecture)
    : list (Meeting Lecture) :=
  let lecturesDiff := getLecturesDiff compareLecture oldMeeting newMeeting in
  if compareMeeting newMeeting oldMeeting && (length lecturesDiff <? 1) then []
  else [ {| subject := subject newMeeting;
            title := title newMeeting;
            lectures := lecturesDiff |} ].

Fixpoint meetings_changed (olds news : list (Meeting Lecture))
    : list (Meeting Lecture) :=
  match olds, news with
  | o :: olds', n :: news' => meeting_entry o n ++ meetings_changed olds' news'
  | _, _ => []
  end.

End Changed.

(** What the meetings diff holds for index [i]: nothing when either
    Subject has no meeting at [i]; otherwise the entry of
    [oldSubject.meetings[i]] against [newSubject.meetings[i]]. *)
Definition changed_at {Lecture : Type}
    (compareLecture : option Lecture -> option Lecture -> bool)
    (compareMeeting : Meeting Lecture -> Meeting Lecture -> bool)
    (olds news : list (Meeting Lecture)) (i : nat) : list (Meeting Lecture) :=
  match olds !! i, news !! i with
  | Some o, Some n => meeting_entry compareLecture compareMeeting o n
  | _, _ => []
  end.

(** ** Structural comparison *)

(** Modelled from the spec: [compareLecture] of [~/business/Lecture] is not
    among the files at hand; the spec (4.4) has it a full structural field
    comparison.  An absent slot equals only an absent slot. *)
Definition compareLecture_structural {Lecture : Type} `{EqDecision Lecture}
    (a b : option Lecture) : bool :=
  bool_decide (a = b).

(** Modelled from the spec: [compareMeeting] of [~/business/Meeting] is not
    among the files at hand; the spec (4.4) has it compare by field equality
    across subject, title, and lecture-by-lecture equality. *)
Definition compareMeeting_structural {Lecture : Type}
    (compareLecture : option Lecture -> option Lecture -> bool)
    (a b : Meeting Lecture) : bool :=
  String.eqb (subject a) (subject b)
  && String.eqb (title a) (title b)
  && (length (lectures a) =? length (lectures b))
  && forallb (fun p => compareLecture p.1 p.2) (zip (lectures a) (lectures b)).

(** ** A concrete portal for the scenarios *)

(** Modelled from the spec: the fields of a [Lecture] are declared in
    [~/business/Lecture], not at hand; the spec (3) names a title and a
    link among them. *)
Record LectureInfo : Type := mkLecture {
  lecture_title : string;
  lecture_link : string
}.

#[global] Instance LectureInfo_eq_dec : EqDecision LectureInfo.
Proof. solve_decision. Defined.

Definition cmpL : option LectureInfo -> option LectureInfo -> bool :=
  compareLecture_structural.
Definition cmpM : Meeting LectureInfo -> Meeting LectureInfo -> bool :=
  compareMeeting_structural cmpL.

(** A serialisation in the manner of [JSON.stringify] (no escaping; an
    absent slot of an array is written [null]). *)
Definition json_string (s : string) : string := dq +:+ s +:+ dq.
Definition json_field (name value : string) : string :=
  json_string name +:+ ":" +:+ value.
Definition json_object (fields : list string) : string :=
  "{" +:+ String.concat "," fields +:+ "}".
Definition json_array (items : list string) : string :=
  "[" +:+ String.concat "," items +:+ "]".
Definition json_lecture (slot : option LectureInfo) : string :=
  match slot with
  | None => "null"
  | Some l =>
      json_object [ json_field "title" (json_string (lecture_title l));
                    json_field "link" (json_string (lecture_link l)) ]
  end.
Definition json_meeting (m : Meeting LectureInfo) : string :=
  json_object [ json_field "subject" (json_string (subject m));
                json_field "title" (json_string (title m));
                json_field "lectures" (json_array (map json_lecture (lectures m))) ].
Definition json_meetings (ms : list (Meeting LectureInfo)) : string :=
  json_array (map json_meeting ms).
Definition json_subject (s : Subject LectureInfo string) : string :=
  json_object [ json_field "courseId" (json_string (courseId s));
                json_field "name" (json_string (attrs s));
                json_field "meetings" (json_meetings (meetings s)) ].

(** [JSON.parse] on the serialisations of the subjects of [known], on
    [null], and a [SyntaxError] elsewhere. *)
Definition json_parse_among (known : list (Subject LectureInfo string))
    (s : string) : Parsed LectureInfo string :=
  match find (fun k => String.eqb (json_subject k) s) known with
  | Some k => ParsedSubject k
  | None =>
      if String.eqb s "null" then ParsedNull
      else ParseThrows (ErrorObj "Unexpected token")
  end.

(** A worker environment: [faults] says which calls throw, the collector
    yields [subjects] whatever the content and the slice, and the store
    holds serialisations of the subjects of [known] only. *)
Definition portal_env (faults : WorkerCall LectureInfo string -> option Thrown)
    (known subjects : list (Subject LectureInfo string))
    : WorkerEnv LectureInfo string :=
  {| throws := faults;
     subjectsContent := "<html></html>";
     collected := fun _ _ _ => subjects;
     JSON_stringify := json_subject;
     JSON_parse := json_parse_among known |}.

Definition no_faults {C : Type} : C -> option Thrown := fun _ => None.

Definition empty_world : WorkerWorld LectureInfo string :=
  {| kv := ∅; calls := [] |}.

(** Scenario subjects. *)
Definition week1 : LectureInfo :=
  {| lecture_title := "Week 1"; lecture_link := "/lms/w1" |}.
Definition week1_updated : LectureInfo :=
  {| lecture_title := "Week 1 (updated)"; lecture_link := "/lms/w1" |}.
Definition week2 : LectureInfo :=
  {| lecture_title := "Week 2"; lecture_link := "/lms/w2" |}.
Definition slides3 : LectureInfo :=
  {| lecture_title := "Slides 3"; lecture_link := "/lms/s3" |}.
Definition quiz3 : LectureInfo :=
  {| lecture_title := "Quiz 3"; lecture_link := "/lms/q3" |}.

Definition meeting1 : Meeting LectureInfo :=
  {| subject := "Algorithms"; title := "Meeting 1"; lectures := [Some week1] |}.
Definition meeting1_updated : Meeting LectureInfo :=
  {| subject := "Algorithms"; title := "Meeting 1";
     lectures := [Some week1_updated] |}.
Definition meeting2 : Meeting LectureInfo :=
  {| subject := "Algorithms"; title := "Meeting 2"; lectures := [Some week2] |}.
Definition meeting3 : Meeting LectureInfo :=
  {| subject := "Algorithms"; title := "Meeting 3";
     lectures := [Some slides3; Some quiz3] |}.

Definition cs101 (ms : list (Meeting LectureInfo)) : Subject LectureInfo string :=
  {| courseId := "CS101"; attrs := "Algorithms"; meetings := ms |}.

(** Meeting 1 with a second lecture appended. *)
Definition meeting1_grown : Meeting LectureInfo :=
  {| subject := "Algorithms"; title := "Meeting 1";
     lectures := [Some week1; Some week2] |}.

(** Meeting 3 with its second lecture retitled, and with its second lecture
    gone. *)
Definition quiz3_updated : LectureInfo :=
  {| lecture_title := "Quiz 3 (updated)"; lecture_link := "/lms/q3" |}.
Definition meeting3_updated : Meeting LectureInfo :=
  {| subject := "Algorithms"; title := "Meeting 3";
     lectures := [Some slides3; Some quiz3_updated] |}.

Definition meeting3_short : Meeting LectureInfo :=
  {| subject := "Algorithms"; title := "Meeting 3"; lectures := [Some slides3] |}.

(** Scenario D: the store throws [Error("boom")] on every lookup. *)
Definition lookup_fails : WorkerCall LectureInfo string -> option Thrown :=
  fun c => match c with StorageGet _ => Some (ErrorObj "boom") | _ => None end.

(** The webhook throws on every change notification. *)
Definition notify_fails : WorkerCall LectureInfo string -> option Thrown :=
  fun c => match c with WebhookNotify _ => Some (ErrorObj "webhook down") | _ => None end.

(** A computation keeps a property of the world, however it ends. *)
Definition preserves {W E A : Type} (P : W -> Prop) (c : M W E A) : Prop :=
  forall w, P w -> P (snd (c w)).

(** A Subject stored by an earlier run, then collected again with the
    lecture of its meeting retitled. *)
Definition stored_cs101 : WorkerWorld LectureInfo string :=
  {| kv := {[ "subject_CS101" := json_subject (cs101 [meeting1]) ]}; calls := [] |}.

(** A concrete LMS for the Scraper: the landing page lists one lecture
    link; the lecture page shows meeting 1, which the collector finds. *)
Definition lms_env : ScraperEnv LectureInfo :=
  {| scraper_throws := no_faults;
     page_content := fun url =>
       if String.eqb url "https://lms.example/lecture/view/1234"
       then "<html>Meeting 1</html>" else "<html></html>";
     page_attributes := fun url selector attribute =>
       if String.eqb url "https://lms.example" && String.eqb selector LECTURE_URL
          && String.eqb attribute "href"
       then ["/lecture/view/1234"] else [];
     Date_now := 1700000000000%N;
     collect := fun html =>
       if String.eqb html "<html>Meeting 1</html>" then [meeting1] else [];
     stringify_meetings := json_meetings |}.

Definition lms_scraper : Scraper :=
  {| _siakadUrl := "https://siakad.example";
     _lmsUrl := "https://lms.example";
     _nim := "2141720000";
     _password := "secret" |}.

(** The world after [goToLMS]: page 1 shows the LMS landing page. *)
Definition lms_landing : ScraperWorld :=
  {| this_page := Some 1; fresh_page := 2;
     page_url := {[ 1 := "https://lms.example" ]};
     audit := ∅; scraper_calls := [] |}.

(** The world of a fresh Scraper: no page handle yet. *)
Definition uninitialized : ScraperWorld :=
  {| this_page := None; fresh_page := 0; page_url := ∅;
     audit := ∅; scraper_calls := [] |}.

(** Calls other than [put] leave [puts] as it was. *)
Ltac puts_unchanged :=
  unfold puts; simpl; rewrite <- ?app_assoc, omap_app; simpl;
  by rewrite app_nil_r.

(** Closes well-formedness goals on concrete entities. *)
Ltac solve_wf :=
  unfold wf_subject, wf_meeting; simpl;
  repeat (apply Forall_cons; split); try apply Forall_nil; by eexists.

(** ** What a run owes

    The change notification a per-Subject run owes for an old snapshot:
    none unless both Subjects have meetings and the diff is not empty
    ([Worker.ts] lines 108-119). *)
Definition change_notification {Lecture Attrs : Type}
    (compareLecture : option Lecture -> option Lecture -> bool)
    (compareMeeting : Meeting Lecture -> Meeting Lecture -> bool)
    (oldSubject subj : Subject Lecture Attrs)
    : list (WorkerCall Lecture Attrs) :=
  if (0 <? length (meetings subj)) && (0 <? length (meetings oldSubject))
     && (0 <? length (getMeetingsDiff compareLecture compareMeeting oldSubject subj))
  then [ WebhookNotify
           (with_meetings subj
              (getMeetingsDiff compareLecture compareMeeting oldSubject subj)) ]
  else [].

(** A computation that, when it throws, has kept a property of the world. *)
Definition throws_keep {W E A : Type} (P : W -> Prop) (c : M W E A) : Prop :=
  forall w, P w ->
    match c w with
    | (Threw _, w') => P w'
    | (Returned _, _) => True
    end.

(** Meeting 1 under a new title, its lecture as it was. *)
Definition meeting1_renamed : Meeting LectureInfo :=
  {| subject := "Algorithms"; title := "Meeting 1 (moved)";
     lectures := [Some week1] |}.

(** The store refuses every write. *)
Definition put_fails : WorkerCall LectureInfo string -> option Thrown :=
  fun c => match c with StoragePut _ _ => Some (ErrorObj "quota") | _ => None end.

(** The session cannot be established. *)
Definition cookies_fail : WorkerCall LectureInfo string -> option Thrown :=
  fun c => match c with CollectCookies => Some (ErrorObj "offline") | _ => None end.

(** A second Subject of the portal. *)
Definition cs102 (ms : list (Meeting LectureInfo)) : Subject LectureInfo string :=
  {| courseId := "CS102"; attrs := "Databases"; meetings := ms |}.

(** An LMS whose landing page lists two lecture links that end in the same
    four characters. *)
Definition lms_env_colliding : ScraperEnv LectureInfo :=
  {| scraper_throws := no_faults;
     page_content := fun url =>
       if String.eqb url "https://lms.example/a/view/1234"
       then "<html>Meeting 1</html>" else "<html></html>";
     page_attributes := fun url selector attribute =>
       if String.eqb url "https://lms.example" && String.eqb selector LECTURE_URL
          && String.eqb attribute "href"
       then ["/a/view/1234"; "/b/view/1234"] else [];
     Date_now := 1700000000000%N;
     collect := fun html =>
       if String.eqb html "<html>Meeting 1</html>" then [meeting1] else [];
     stringify_meetings := json_meetings |}.

(** An LMS whose login page cannot be reached. *)
Definition lms_env_unreachable : ScraperEnv LectureInfo :=
  {| scraper_throws := fun c =>
       match c with PageVisit _ _ => Some (ErrorObj "timeout") | _ => None end;
     page_content := fun _ => "<html></html>";
     page_attributes := fun _ _ _ => [];
     Date_now := 1700000000000%N;
     collect := fun _ => [];
     stringify_meetings := json_meetings |}.

(** A store whose snapshot of [CS101] is not JSON. *)
Definition corrupt_store : WorkerWorld LectureInfo string :=
  {| kv := {[ "subject_CS101" := "<html>" ]}; calls := [] |}.

(** A store with the snapshots of two Subjects. *)
Definition two_snapshots : WorkerWorld LectureInfo string :=
  {| kv := <[ "subject_CS102" := json_subject (cs102 [meeting2]) ]>
             {[ "subject_CS101" := json_subject (cs101 [meeting1]) ]};
     calls := [] |}.

(** ** Concurrent tasks

    An async function runs until its first [await]; from then on it runs
    one turn at a time, a turn going from the completion of the call it
    awaits to its next [await].  Between two turns of a task, turns of
    other tasks may run. *)

#[warnings="-register-all"]
Inductive Async (W E A : Type) : Type :=
| Resolved (a : A)
| Rejected (e : E)
| Suspended (resume : W -> Async W E A * W).
Arguments Resolved {W E A} a.
Arguments Rejected {W E A} e.
Arguments Suspended {W E A} resume.

(** The body of an async function: its run up to the first [await]. *)
Definition Body (W E A : Type) : Type := W -> Async W E A * W.

(** [items.map(async ...)]: every body runs up to its first [await], in the
    order of the array. *)
Fixpoint start_all {W E A : Type} (bodies : list (Body W E A)) (w : W)
    : list (Async W E A) * W :=
  match bodies with
  | [] => ([], w)
  | body :: rest =>
      let (t, w1) := body w in
      let (ts, w2) := start_all rest w1 in
      (t :: ts, w2)
  end.

(** One turn of a task; a settled task has no turn left. *)
Definition resume_of {W E A : Type} (t : Async W E A) (w : W) : Async W E A * W :=
  match t with
  | Suspended resume => resume w
  | _ => (t, w)
  end.

(** The task of index [i] takes a turn. *)
Definition turn {W E A : Type} (i : nat) (st : list (Async W E A) * W)
    : list (Async W E A) * W :=
  match st.1 !! i with
  | Some t => let (t', w') := resume_of t st.2 in (<[i := t']> st.1, w')
  | None => st
  end.

Fixpoint first_rejected {W E A : Type} (ts : list (Async W E A)) : option E :=
  match ts with
  | [] => None
  | Rejected e :: _ => Some e
  | _ :: rest => first_rejected rest
  end.

Definition is_resolved {W E A : Type} (t : Async W E A) : bool :=
  match t with
  | Resolved _ => true
  | _ => false
  end.

(** How [Promise.all] stands: rejected as soon as a task is, resolved once
    all are, pending otherwise. *)
Definition settled {W E A : Type} (ts : list (Async W E A))
    : option (Outcome E unit) :=
  match first_rejected ts with
  | Some e => Some (Threw e)
  | None => if forallb is_resolved ts then Some (Returned tt) else None
  end.

(** [await Promise.all(tasks)] under a schedule, the list of the indices of
    the tasks in the order they take their turns: the outcome and the world
    at the moment the whole settles, or nothing when it has not settled by
    the end of the schedule. *)
Fixpoint await_all {W E A : Type} (schedule : list nat)
    (st : list (Async W E A) * W) : option (Outcome E unit * W) :=
  match settled st.1 with
  | Some r => Some (r, st.2)
  | None =>
      match schedule with
      | [] => None
      | i :: rest => await_all rest (turn i st)
      end
  end.

(** A task that takes all its turns with no other task in between, at most
    [n] of them. *)
Fixpoint run_alone {W E A : Type} (n : nat) (t : Async W E A) (w : W)
    : option (Outcome E A * W) :=
  match t with
  | Resolved a => Some (Returned a, w)
  | Rejected e => Some (Threw e, w)
  | Suspended resume =>
      match n with
      | 0 => None
      | S n' => let (t', w') := resume w in run_alone n' t' w'
      end
  end.

(** ** The Scraper's concurrent page tasks *)

Section ScraperAsync.
Context {Lecture : Type}.
Variable env : ScraperEnv Lecture.

Local Abbreviation Task := (Async ScraperWorld ScraperThrown).
Local Abbreviation TaskBody := (Body ScraperWorld ScraperThrown).

(** What the calls do to the world when they complete. *)
Definition visited (p : nat) (url : string) : M ScraperWorld ScraperThrown unit :=
  fun w => (Returned tt,
            {| this_page := this_page w; fresh_page := fresh_page w;
               page_url := <[p := url]> (page_url w); audit := audit w;
               scraper_calls := scraper_calls w |}).
Definition shown (p : nat) : M ScraperWorld ScraperThrown string :=
  fun w => (Returned (page_content env (default "" (page_url w !! p))), w).
Definition written (key value : string) : M ScraperWorld ScraperThrown unit :=
  fun w => (Returned tt,
            {| this_page := this_page w; fresh_page := fresh_page w;
               page_url := page_url w; audit := <[key := value]> (audit w);
               scraper_calls := scraper_calls w |}).

(** A task waiting for the call [c]: on its next turn the call completes
    (it throws, or has its effect and gives its result) and the task goes
    on with [k] up to its next [await]. *)
Definition pending {A B : Type} (c : ScraperCall)
    (effect : M ScraperWorld ScraperThrown A) (k : A -> TaskBody B) : Task B :=
  Suspended (fun w =>
    match scraper_throws env c with
    | Some t => (Rejected (Collaborator t), w)
    | None =>
        match effect w with
        | (Returned a, w') => k a w'
        | (Threw e, w') => (Rejected e, w')
        end
    end).

(** [await call(...)]: the call is made (and recorded) now, and the task
    waits for it. *)
Definition await_call {A B : Type} (c : ScraperCall)
    (effect : M ScraperWorld ScraperThrown A) (k : A -> TaskBody B) : TaskBody B :=
  fun w => (pending c effect k, snd (srecord c w)).

(** A call that is not awaited: it throws or gives [v] within the turn. *)
Definition sync_call {A B : Type} (c : ScraperCall) (v : A) (k : A -> TaskBody B)
    : TaskBody B :=
  fun w =>
    match scraper_throws env c with
    | Some t => (Rejected (Collaborator t), snd (srecord c w))
    | None => k v (snd (srecord c w))
    end.

Definition resolve {A : Type} (a : A) : TaskBody A := fun w => (Resolved a, w).

(** The callback of [urls.map], lines 115-122, with its [await]s. *)
Definition snapshotTaskA (this : Scraper) (timestamp : N) (url : string)
    : TaskBody unit :=
  await_call BrowserNewPage alloc_page (fun page =>
  await_call (PageVisit page (_lmsUrl this +:+ url))
             (visited page (_lmsUrl this +:+ url)) (fun _ =>
  await_call (PageGetContent page) (shown page) (fun html =>
  sync_call (CollectorCollect html) (collect env html) (fun meetings =>
  await_call (AuditPut (snapshot_key timestamp url)
                (stringify_meetings env meetings))
             (written (snapshot_key timestamp url)
                (stringify_meetings env meetings)) (fun _ =>
  await_call (PageClose page) (ret tt) (fun _ =>
  resolve tt)))))).

(** [savePageSnapshots], lines 109-124, under a schedule of the page
    tasks: nothing when [Promise.all] has not settled by its end (the
    guard of line 110 does not fire, as in [goToLMS]). *)
Definition savePageSnapshotsA (this : Scraper) (schedule : list nat)
    (w : ScraperWorld) : option (Outcome ScraperThrown unit * ScraperWorld) :=
  match this_page w with
  | None => Some (Threw (NotInitializedError "this._page"), w)
  | Some p =>
      match page_getAttributesFromElements env p LECTURE_URL "href" w with
      | (Threw e, w1) => Some (Threw e, w1)
      | (Returned urls, w1) =>
          let timestamp := Date_now env in
          await_all schedule
            (start_all (map (snapshotTaskA this timestamp) urls) w1)
      end
  end.

(** [scrape], lines 70-81, under a schedule of the page tasks. *)
Definition scrapeA (this : Scraper) (schedule : list nat) (w : ScraperWorld)
    : option (Outcome ScraperThrown unit * ScraperWorld) :=
  match (do! scraper_logger_info "Initialising..." in
         do! init env in
         do! scraper_logger_info "Logging in..." in
         do! login env this in
         do! scraper_logger_info "Visiting LMS..." in
         do! goToLMS env this in
         scraper_logger_info "Saving snapshots...") w with
  | (Threw e, w1) => Some (Threw e, w1)
  | (Returned _, w1) =>
      match savePageSnapshotsA this schedule w1 with
      | None => None
      | Some (Threw e, w2) => Some (Threw e, w2)
      | Some (Returned _, w2) =>
          Some ((do! scraper_logger_info "Cleaning up..." in cleanUp env) w2)
      end
  end.

(** *** Where a page task stands

    The await a page task is at, with the page it holds and, once the
    content is collected, the value it is about to write. *)
Inductive Stage : Type :=
| AwaitNewPage
| AwaitVisit (page : nat)
| AwaitContent (page : nat)
| AwaitPut (page : nat) (value : string)
| AwaitClose (page : nat)
| Finished.

(** The task of [url] at a stage. *)
Definition task_at (this : Scraper) (timestamp : N) (url : string) (g : Stage)
    : Task unit :=
  match g with
  | AwaitNewPage =>
      pending BrowserNewPage alloc_page (fun page =>
      await_call (PageVisit page (_lmsUrl this +:+ url))
                 (visited page (_lmsUrl this +:+ url)) (fun _ =>
      await_call (PageGetContent page) (shown page) (fun html =>
      sync_call (CollectorCollect html) (collect env html) (fun meetings =>
      await_call (AuditPut (snapshot_key timestamp url)
                    (stringify_meetings env meetings))
                 (written (snapshot_key timestamp url)
                    (stringify_meetings env meetings)) (fun _ =>
      await_call (PageClose page) (ret tt) (fun _ =>
      resolve tt))))))
  | AwaitVisit page =>
      pending (PageVisit page (_lmsUrl this +:+ url))
              (visited page (_lmsUrl this +:+ url)) (fun _ =>
      await_call (PageGetContent page) (shown page) (fun html =>
      sync_call (CollectorCollect html) (collect env html) (fun meetings =>
      await_call (AuditPut (snapshot_key timestamp url)
                    (stringify_meetings env meetings))
                 (written (snapshot_key timestamp url)
                    (stringify_meetings env meetings)) (fun _ =>
      await_call (PageClose page) (ret tt) (fun _ =>
      resolve tt)))))
  | AwaitContent page =>
      pending (PageGetContent page) (shown page) (fun html =>
      sync_call (CollectorCollect html) (collect env html) (fun meetings =>
      await_call (AuditPut (snapshot_key timestamp url)
                    (stringify_meetings env meetings))
                 (written (snapshot_key timestamp url)
                    (stringify_meetings env meetings)) (fun _ =>
      await_call (PageClose page) (ret tt) (fun _ =>
      resolve tt))))
  | AwaitPut page value =>
      pending (AuditPut (snapshot_key timestamp url) value)
              (written (snapshot_key timestamp url) value) (fun _ =>
      await_call (PageClose page) (ret tt) (fun _ =>
      resolve tt))
  | AwaitClose page =>
      pending (PageClose page) (ret tt) (fun _ => resolve tt)
  | Finished => Resolved tt
  end.

(** The turn of the task of [url] at a stage when no call fails: the stage
    it reaches and the world it leaves. *)
Definition advance (this : Scraper) (timestamp : N) (url : string) (g : Stage)
    (w : ScraperWorld) : Stage * ScraperWorld :=
  match g with
  | AwaitNewPage =>
      (AwaitVisit (fresh_page w),
       snd (srecord (PageVisit (fresh_page w) (_lmsUrl this +:+ url))
              (snd (alloc_page w))))
  | AwaitVisit page =>
      (AwaitContent page,
       snd (srecord (PageGetContent page)
              (snd (visited page (_lmsUrl this +:+ url) w))))
  | AwaitContent page =>
      let html := page_content env (default "" (page_url w !! page)) in
      let value := stringify_meetings env (collect env html) in
      (AwaitPut page value,
       snd (srecord (AuditPut (snapshot_key timestamp url) value)
              (snd (srecord (CollectorCollect html) w))))
  | AwaitPut page value =>
      (AwaitClose page,
       snd (srecord (PageClose page)
              (snd (written (snapshot_key timestamp url) value w))))
  | AwaitClose page => (Finished, w)
  | Finished => (Finished, w)
  end.

(** The page a task holds while it has still to read it. *)
Definition held (g : Stage) : option nat :=
  match g with
  | AwaitVisit page | AwaitContent page => Some page
  | _ => None
  end.

(** The write a task has made, once it has made it, and whether the write
    has completed. *)
Definition put_made (timestamp : N) (value : string -> string)
    (task : string * Stage) : list (string * string) :=
  match task.2 with
  | AwaitPut _ _ | AwaitClose _ | Finished =>
      [(snapshot_key timestamp task.1, value task.1)]
  | _ => []
  end.
Definition put_done (g : Stage) : bool :=
  match g with
  | AwaitClose _ | Finished => true
  | _ => false
  end.

(** The pages a task has been given. *)
Definition pages_taken (g : Stage) : nat :=
  match g with
  | AwaitNewPage => 0
  | _ => 1
  end.

(** The turns a task has left. *)
Definition turns_left (g : Stage) : nat :=
  match g with
  | AwaitNewPage => 5
  | AwaitVisit _ => 4
  | AwaitContent _ => 3
  | AwaitPut _ _ => 2
  | AwaitClose _ => 1
  | Finished => 0
  end.

Definition finished (g : Stage) : bool :=
  match g with
  | Finished => true
  | _ => false
  end.

(** The page tasks of a listing, each with its URL and its stage. *)
Definition tasks_of (this : Scraper) (timestamp : N) (st : list (string * Stage))
    : list (Task unit) :=
  (fun task => task_at this timestamp task.1 task.2) <$> st.

(** The turn of the task of index [i] on the stages. *)
Definition advance_at (this : Scraper) (timestamp : N) (i : nat)
    (st : list (string * Stage)) (w : ScraperWorld)
    : list (string * Stage) * ScraperWorld :=
  match st !! i with
  | Some (url, g) =>
      (<[i := (url, (advance this timestamp url g w).1)]> st,
       (advance this timestamp url g w).2)
  | None => (st, w)
  end.

(** What is stored for a URL: the serialised result of the collector on the
    content of the lecture page. *)
Definition stored_for (this : Scraper) (url : string) : string :=
  stringify_meetings env (collect env (page_content env (_lmsUrl this +:+ url))).

(** What every schedule keeps of the page tasks of the listing [urls]
    started in the world [w0]: the page handle; one page given per task
    past its first turn; the pages still to be read are given, distinct,
    and show the page of their task once visited; the value about to be
    written is that of the task's URL; the writes made are those of the
    tasks that made theirs; and under the key of a task whose write
    completed the store holds what was written for a URL of that key. *)
Record page_tasks_inv (this : Scraper) (timestamp : N) (urls : list string)
    (w0 : ScraperWorld) (st : list (string * Stage)) (w : ScraperWorld) : Prop :=
  mk_page_tasks_inv {
    inv_urls : st.*1 = urls;
    inv_this_page : this_page w = this_page w0;
    inv_fresh :
      fresh_page w = fresh_page w0 + length (flat_map (fun task => replicate (pages_taken task.2) tt) st);
    inv_held_fresh : forall i url g p,
      st !! i = Some (url, g) -> held g = Some p -> p < fresh_page w;
    inv_held_distinct : forall i j ui gi uj gj p,
      i <> j -> st !! i = Some (ui, gi) -> st !! j = Some (uj, gj) ->
      held gi = Some p -> held gj = Some p -> False;
    inv_content : forall i url p,
      st !! i = Some (url, AwaitContent p) ->
      page_url w !! p = Some (_lmsUrl this +:+ url);
    inv_value : forall i url p v,
      st !! i = Some (url, AwaitPut p v) -> v = stored_for this url;
    inv_puts :
      Permutation (audit_puts w)
        (audit_puts w0 ++ flat_map (put_made timestamp (stored_for this)) st);
    inv_store : forall i url g,
      st !! i = Some (url, g) -> put_done g = true ->
      exists url', In url' urls
        /\ snapshot_key timestamp url' = snapshot_key timestamp url
        /\ audit w !! snapshot_key timestamp url = Some (stored_for this url')
  }.

End ScraperAsync.

(** * Properties of the diff engine *)

(** ** Loops that only push *)

Lemma fold_left_push {A B : Type} (body : list A -> B -> list A)
    (f : B -> list A) (l : list B) (init : list A) :
  (forall r i, body r i = r ++ f i) ->
  fold_left body l init = init ++ flat_map f l.
Proof.
  intros Hbody. revert init.
  induction l as [|x l IH]; intros init; simpl.
  - by rewrite app_nil_r.
  - rewrite IH, Hbody. by rewrite <- app_assoc.
Qed.

Lemma flat_map_seq_shift {A : Type} (f : nat -> list A) (a n : nat) :
  flat_map f (seq (S a) n) = flat_map (fun i => f (S i)) (seq a n).
Proof.
  revert a. induction n as [|n IH]; intros a; simpl; [done|].
  by rewrite IH.
Qed.

Lemma flat_map_all_nil {A B : Type} (f : B -> list A) (l : list B) :
  (forall x, In x l -> f x = []) -> flat_map f l = [].
Proof.
  intros Hf. induction l as [|x l IH]; simpl; [done|].
  rewrite Hf by (by left). apply IH. intros y Hy. apply Hf. by right.
Qed.

Lemma js_at_tail {A : Type} (a : list (option A)) (i : nat) :
  js_at a (S i) = js_at (tail a) i.
Proof. by destruct a. Qed.

Lemma js_at_ge {A : Type} (a : list (option A)) (i : nat) :
  length a <= i -> js_at a i = None.
Proof. intros Hi. unfold js_at. by rewrite lookup_ge_None_2. Qed.

Section DiffEngineFacts.
Context {Lecture Attrs : Type}.
Variable compareLecture : option Lecture -> option Lecture -> bool.
Variable compareMeeting : Meeting Lecture -> Meeting Lecture -> bool.

Local Abbreviation Subj := (Subject Lecture Attrs).

Lemma lectures_step_push (o n : Meeting Lecture) r i :
  lectures_step compareLecture o n r i
  = r ++ lecture_entry compareLecture (js_at (lectures o) i) (js_at (lectures n) i).
Proof.
  unfold lectures_step, lecture_entry.
  destruct (compareLecture _ _); simpl; by rewrite ?app_nil_r.
Qed.

Lemma lectures_changed_index (olds news : list (option Lecture)) :
  flat_map (fun i => lecture_entry compareLecture (js_at olds i) (js_at news i))
           (seq 0 (length olds))
  = lectures_changed compareLecture olds news.
Proof.
  revert news. induction olds as [|o olds IH]; intros news; simpl; [done|].
  f_equal. rewrite flat_map_seq_shift, <- IH.
  apply flat_map_ext. intros i. by rewrite (js_at_tail news).
Qed.

(** The lecture loop, index by index: the appended lectures, then what
    each index below the old length pushes. *)
Lemma getLecturesDiff_by_index (o n : Meeting Lecture) :
  getLecturesDiff compareLecture o n
  = drop (length (lectures o)) (lectures n)
    ++ flat_map (fun i => lecture_entry compareLecture
                            (js_at (lectures o) i) (js_at (lectures n) i))
                (seq 0 (length (lectures o))).
Proof.
  unfold getLecturesDiff, for_upto, slice_from.
  rewrite (fold_left_push _ _ _ _ (lectures_step_push o n)). f_equal.
  destruct (Nat.ltb_spec (length (lectures o)) (length (lectures n))); [done|].
  by rewrite drop_ge.
Qed.

(** The same, by recursion on the old array. *)
Lemma getLecturesDiff_unfold (o n : Meeting Lecture) :
  getLecturesDiff compareLecture o n
  = drop (length (lectures o)) (lectures n)
    ++ lectures_changed compareLecture (lectures o) (lectures n).
Proof. by rewrite getLecturesDiff_by_index, lectures_changed_index. Qed.

Lemma meetings_step_push (olds sl r : list (Meeting Lecture)) i :
  meetings_step compareLecture compareMeeting olds sl r i
  = r ++ meetings_step compareLecture compareMeeting olds sl [] i.
Proof.
  unfold meetings_step.
  destruct (sl !! i), (olds !! i); rewrite ?app_nil_r; try done.
  destruct (_ && _); by rewrite ?app_nil_r.
Qed.

(** Inside the loop both reads are in range. *)
Lemma meetings_step_in_range (olds news : list (Meeting Lecture)) i :
  i < length (slice_to (length olds) news) ->
  is_Some (slice_to (length olds) news !! i) /\ is_Some (olds !! i).
Proof.
  unfold slice_to. rewrite length_take. intros Hi. split.
  - apply lookup_lt_is_Some. rewrite length_take. lia.
  - apply lookup_lt_is_Some. lia.
Qed.

Lemma meetings_changed_index (olds sl : list (Meeting Lecture)) :
  flat_map (fun i => meetings_step compareLecture compareMeeting olds sl [] i)
           (seq 0 (length sl))
  = meetings_changed compareLecture compareMeeting olds sl.
Proof.
  revert olds. induction sl as [|n sl IH]; intros olds; simpl.
  - by destruct olds.
  - destruct olds as [|o olds].
    + rewrite flat_map_seq_shift, flat_map_all_nil.
      * unfold meetings_step. by destruct ((n :: sl) !! 0).
      * intros i _. unfold meetings_step. by destruct ((n :: sl) !! S i).
    + simpl. rewrite flat_map_seq_shift, <- IH. reflexivity.
Qed.

Lemma meetings_changed_take (olds news : list (Meeting Lecture)) :
  meetings_changed compareLecture compareMeeting olds (take (length olds) news)
  = meetings_changed compareLecture compareMeeting olds news.
Proof.
  revert news. induction olds as [|o olds IH]; intros [|n news]; simpl; try done.
  by rewrite IH.
Qed.

(** The meeting loop, unfolded: the appended meetings come first, then the
    entries of the changed meetings. *)
Lemma getMeetingsDiff_unfold (old new : Subj) :
  getMeetingsDiff compareLecture compareMeeting old new
  = drop (length (meetings old)) (meetings new)
    ++ meetings_changed compareLecture compareMeeting (meetings old) (meetings new).
Proof.
  unfold getMeetingsDiff, for_upto, slice_from, slice_to.
  rewrite (fold_left_push _ _ _ _ (meetings_step_push _ _)).
  rewrite meetings_changed_index, meetings_changed_take. f_equal.
  destruct (Nat.ltb_spec (length (meetings old)) (length (meetings new))); [done|].
  by rewrite drop_ge.
Qed.

(** ** Unchanged entities *)

Lemma lectures_changed_same (l : list (option Lecture)) :
  (forall x, In x l -> compareLecture x x = true) ->
  lectures_changed compareLecture l l = [].
Proof.
  induction l as [|o l IH]; intros Hrefl; simpl; [done|].
  unfold lecture_entry, js_at. simpl.
  rewrite Hrefl by (by left). apply IH.
  intros x Hx. apply Hrefl. by right.
Qed.

Lemma getLecturesDiff_same (m : Meeting Lecture) :
  (forall l, compareLecture (Some l) (Some l) = true) ->
  wf_meeting m ->
  getLecturesDiff compareLecture m m = [].
Proof.
  intros Hrefl Hwf. rewrite getLecturesDiff_unfold, drop_all. simpl.
  apply lectures_changed_same. intros x Hx.
  unfold wf_meeting in Hwf. rewrite Forall_forall in Hwf.
  destruct (Hwf x) as [l ->]; [by apply list_elem_of_In|]. apply Hrefl.
Qed.

Lemma meetings_changed_extension (olds appended : list (Meeting Lecture)) :
  (forall l, compareLecture (Some l) (Some l) = true) ->
  (forall m, compareMeeting m m = true) ->
  Forall wf_meeting olds ->
  meetings_changed compareLecture compareMeeting olds (olds ++ appended) = [].
Proof.
  intros HL HM Hwf. induction Hwf as [|o olds Ho Hwf IH]; simpl; [done|].
  unfold meeting_entry. by rewrite HM, getLecturesDiff_same, IH.
Qed.

Lemma getMeetingsDiff_extension (old new : Subj) (appended : list (Meeting Lecture)) :
  (forall l, compareLecture (Some l) (Some l) = true) ->
  (forall m, compareMeeting m m = true) ->
  wf_subject old ->
  meetings new = meetings old ++ appended ->
  getMeetingsDiff compareLecture compareMeeting old new = appended.
Proof.
  intros HL HM Hwf Hnew.
  rewrite getMeetingsDiff_unfold, Hnew, drop_app_length.
  rewrite meetings_changed_extension by done. by rewrite app_nil_r.
Qed.

(** C5.  When [new.meetings] is [old.meetings] followed by appended meetings
    (the leading meetings the same, lecture for lecture), the meetings diff
    is exactly the appended meetings, as they are; its length is
    [new.meetings.length - old.meetings.length].  The comparisons are taken
    to hold of an entity and itself. *)
Theorem getMeetingsDiff_prefix_extension
    (old new : Subj) (appended : list (Meeting Lecture)) :
  (forall l, compareLecture (Some l) (Some l) = true) ->
  (forall m, compareMeeting m m = true) ->
  wf_subject old ->
  meetings new = meetings old ++ appended ->
  getMeetingsDiff compareLecture compareMeeting old new = appended
  /\ length (getMeetingsDiff compareLecture compareMeeting old new)
     = length (meetings new) - length (meetings old).
Proof.
  intros HL HM Hwf Hnew.
  rewrite (getMeetingsDiff_extension old new appended) by done.
  split; [done|]. rewrite Hnew, length_app. lia.
Qed.

(** C6.  The meetings diff of a Subject against an identical copy of it is
    empty. *)
Theorem getMeetingsDiff_identical (s s' : Subj) :
  (forall l, compareLecture (Some l) (Some l) = true) ->
  (forall m, compareMeeting m m = true) ->
  wf_subject s ->
  s' = s ->
  getMeetingsDiff compareLecture compareMeeting s s' = [].
Proof.
  intros HL HM Hwf ->.
  apply getMeetingsDiff_extension; try done. by rewrite app_nil_r.
Qed.

(** ** One changed lecture *)

Lemma flat_map_single {A : Type} (f : nat -> list A) (n k : nat) (x : A) :
  k < n ->
  f k = [x] ->
  (forall i, i < n -> i <> k -> f i = []) ->
  flat_map f (seq 0 n) = [x].
Proof.
  intros Hk Hfk Hother.
  replace n with (k + (1 + (n - S k))) by lia.
  rewrite !seq_app, !flat_map_app. simpl.
  rewrite Hfk, !flat_map_all_nil; [done| |].
  - intros i Hi. apply in_seq in Hi. apply Hother; lia.
  - intros i Hi. apply in_seq in Hi. apply Hother; lia.
Qed.

(** C7.  When the two meetings have lectures index for index, the lecture
    at index [k] differs and every other lecture compares equal to its
    counterpart, the lectures diff holds exactly the lecture at index [k] of
    the new meeting. *)
Theorem getLecturesDiff_single_change (old new : Meeting Lecture) (k : nat) :
  length (lectures old) = length (lectures new) ->
  k < length (lectures old) ->
  compareLecture (js_at (lectures old) k) (js_at (lectures new) k) = false ->
  (forall i, i < length (lectures old) -> i <> k ->
     compareLecture (js_at (lectures old) i) (js_at (lectures new) i) = true) ->
  getLecturesDiff compareLecture old new = [js_at (lectures new) k]
  /\ lectures new !! k = Some (js_at (lectures new) k).
Proof.
  intros Hlen Hk Hdiff Hsame. split.
  - rewrite getLecturesDiff_by_index, Hlen, drop_all. simpl.
    apply flat_map_single with (k := k); [lia | |].
    + unfold lecture_entry. by rewrite Hdiff.
    + intros i Hi Hne. unfold lecture_entry. rewrite Hsame; [done|lia|done].
  - unfold js_at. destruct (lookup_lt_is_Some_2 (lectures new) k) as [x ->]; [lia|done].
Qed.

(** ** A shorter new lecture array *)

Lemma lectures_changed_app (o1 o2 news : list (option Lecture)) :
  lectures_changed compareLecture (o1 ++ o2) news
  = lectures_changed compareLecture o1 news
    ++ lectures_changed compareLecture o2 (drop (length o1) news).
Proof.
  revert news. induction o1 as [|o o1 IH]; intros news; simpl.
  - by rewrite drop_0.
  - rewrite IH, <- app_assoc. destruct news; simpl; by rewrite ?drop_nil.
Qed.

Lemma lectures_changed_past_end (olds : list (option Lecture)) :
  (forall l, compareLecture (Some l) None = false) ->
  Forall is_Some olds ->
  lectures_changed compareLecture olds [] = replicate (length olds) None.
Proof.
  intros Habsent Hwf. induction Hwf as [|o olds [l ->] Hwf IH]; simpl; [done|].
  unfold lecture_entry, js_at. simpl. by rewrite Habsent, IH.
Qed.

(** C10.  When the new meeting has fewer lectures than the old one, the loop
    still runs over every index of the old array; at each index past the
    end of the new array it reads [undefined], compares the old lecture
    with it and, the comparison being false, pushes it: the diff ends with
    one [undefined] for every such index, which is no lecture of the new
    meeting. *)
Theorem getLecturesDiff_reads_past_end (old new : Meeting Lecture) :
  (forall l, compareLecture (Some l) None = false) ->
  wf_meeting old ->
  length (lectures new) < length (lectures old) ->
  (forall i, length (lectures new) <= i -> js_at (lectures new) i = None)
  /\ getLecturesDiff compareLecture old new
     = lectures_changed compareLecture
         (take (length (lectures new)) (lectures old)) (lectures new)
       ++ replicate (length (lectures old) - length (lectures new)) None
  /\ In None (getLecturesDiff compareLecture old new)
  /\ (wf_meeting new -> ~ In None (lectures new)).
Proof.
  intros Habsent Hwf Hlen.
  assert (Heq : getLecturesDiff compareLecture old new
     = lectures_changed compareLecture
         (take (length (lectures new)) (lectures old)) (lectures new)
       ++ replicate (length (lectures old) - length (lectures new)) None).
  { rewrite getLecturesDiff_unfold, drop_ge by lia. simpl.
    rewrite <- (take_drop (length (lectures new)) (lectures old)) at 1.
    rewrite lectures_changed_app, length_take, Nat.min_l by lia.
    rewrite drop_all, lectures_changed_past_end, length_drop; [done..|].
    by apply Forall_drop. }
  split; [apply js_at_ge|]. split; [done|]. split.
  - rewrite Heq. apply in_or_app. right.
    destruct (length (lectures old) - length (lectures new)) eqn:E; [lia|].
    by left.
  - intros Hnew Hin. unfold wf_meeting in Hnew. rewrite Forall_forall in Hnew.
    apply list_elem_of_In, Hnew in Hin. by destruct Hin.
Qed.

End DiffEngineFacts.

(** ** The order of the entries of the meetings diff *)

Lemma map_snd_tagged {A : Type} (f : nat -> list A) (l : list nat) :
  map snd (flat_map (fun i => map (pair i) (f i)) l) = flat_map f l.
Proof.
  induction l as [|i l IH]; simpl; [done|].
  rewrite map_app, IH, map_map. simpl. by rewrite map_id.
Qed.

Lemma map_snd_zip_seq {A : Type} (l : list A) (a : nat) :
  map snd (zip (seq a (length l)) l) = l.
Proof.
  revert a. induction l as [|x l IH]; intros a; simpl; [done|]. by rewrite IH.
Qed.

Section DiffOrder.
Context {Lecture Attrs : Type}.
Variable compareLecture : option Lecture -> option Lecture -> bool.
Variable compareMeeting : Meeting Lecture -> Meeting Lecture -> bool.

Lemma meetings_step_idx_push (olds sl : list (Meeting Lecture)) r i :
  meetings_step_idx compareLecture compareMeeting olds sl r i
  = r ++ map (pair i) (meetings_step compareLecture compareMeeting olds sl [] i).
Proof.
  unfold meetings_step_idx.
  destruct (meetings_step _ _ _ _ _ _); simpl; by rewrite ?app_nil_r.
Qed.

Lemma getMeetingsDiffIdx_unfold (old new : Subject Lecture Attrs) :
  getMeetingsDiffIdx compareLecture compareMeeting old new
  = zip (seq (length (meetings old))
             (length (drop (length (meetings old)) (meetings new))))
        (drop (length (meetings old)) (meetings new))
    ++ flat_map
         (fun i => map (pair i)
            (meetings_step compareLecture compareMeeting (meetings old)
               (take (length (meetings old)) (meetings new)) [] i))
         (seq 0 (length (take (length (meetings old)) (meetings new)))).
Proof.
  unfold getMeetingsDiffIdx, for_upto, slice_from, slice_to.
  rewrite (fold_left_push _ _ _ _ (meetings_step_idx_push _ _)). f_equal.
  rewrite length_drop.
  destruct (Nat.ltb_spec (length (meetings old)) (length (meetings new))); [done|].
  by replace (length (meetings new) - length (meetings old)) with 0 by lia.
Qed.

(** The tagged computation is the diff with its tags erased. *)
Lemma getMeetingsDiffIdx_erase (old new : Subject Lecture Attrs) :
  map snd (getMeetingsDiffIdx compareLecture compareMeeting old new)
  = getMeetingsDiff compareLecture compareMeeting old new.
Proof.
  rewrite getMeetingsDiffIdx_unfold, map_app, map_snd_zip_seq, map_snd_tagged.
  rewrite meetings_changed_index, meetings_changed_take.
  by rewrite getMeetingsDiff_unfold.
Qed.

Lemma meetings_changed_by_index (olds news : list (Meeting Lecture)) :
  meetings_changed compareLecture compareMeeting olds news
  = flat_map (changed_at compareLecture compareMeeting olds news)
      (seq 0 (Nat.min (length olds) (length news))).
Proof.
  revert news. induction olds as [|o olds IH]; intros [|n news]; simpl; try done.
  by rewrite flat_map_seq_shift, IH.
Qed.

(** C3, as the code has it.  The meetings diff is, in this order: the
    wholly-new meetings [new.meetings[j]] for [j] from [old.meetings.length]
    up, in ascending order of [j] (the one of index [j] at position
    [j - old.meetings.length] of the diff); then, for [i] ascending from 0
    below both lengths, the entry of the changed meeting of index [i], which
    is made from [old.meetings[i]] and [new.meetings[i]].  So every
    wholly-new meeting precedes every changed one. *)
Theorem getMeetingsDiff_new_then_changed (old new : Subject Lecture Attrs) :
  getMeetingsDiff compareLecture compareMeeting old new
  = drop (length (meetings old)) (meetings new)
    ++ flat_map (changed_at compareLecture compareMeeting
                   (meetings old) (meetings new))
         (seq 0 (Nat.min (length (meetings old)) (length (meetings new))))
  /\ (forall j, length (meetings old) <= j -> j < length (meetings new) ->
        getMeetingsDiff compareLecture compareMeeting old new
          !! (j - length (meetings old))
        = meetings new !! j)
  /\ (forall i,
        changed_at compareLecture compareMeeting (meetings old) (meetings new) i = []
        \/ exists o n,
             meetings old !! i = Some o /\ meetings new !! i = Some n
             /\ changed_at compareLecture compareMeeting
                  (meetings old) (meetings new) i
                = [ {| subject := subject n; title := title n;
                       lectures := getLecturesDiff compareLecture o n |} ]).
Proof.
  assert (Heq : getMeetingsDiff compareLecture compareMeeting old new
    = drop (length (meetings old)) (meetings new)
      ++ flat_map (changed_at compareLecture compareMeeting
                     (meetings old) (meetings new))
           (seq 0 (Nat.min (length (meetings old)) (length (meetings new)))))
    by (by rewrite getMeetingsDiff_unfold, meetings_changed_by_index).
  split; [exact Heq|]. split.
  - intros j Hold Hnew. rewrite Heq.
    rewrite lookup_app_l by (rewrite length_drop; lia).
    rewrite lookup_drop. f_equal. lia.
  - intros i. unfold changed_at.
    destruct (meetings old !! i) as [o|]; [|by left].
    destruct (meetings new !! i) as [n|]; [|by left].
    unfold meeting_entry. destruct (_ && _); [by left|].
    right. by exists o, n.
Qed.

End DiffOrder.

(** Whatever the two comparisons answer: the old Subject has meeting 1;
    the new one has meeting 1 with a lecture appended, and meeting 2.  The
    diff is meeting 2 (index 1), then the entry of meeting 1 (index 0). *)
Lemma diff_indices_new_before_changed
    (compareLecture : option LectureInfo -> option LectureInfo -> bool)
    (compareMeeting : Meeting LectureInfo -> Meeting LectureInfo -> bool) :
  diff_indices compareLecture compareMeeting
    (cs101 [meeting1]) (cs101 [meeting1_grown; meeting2]) = [1; 0].
Proof.
  unfold diff_indices, getMeetingsDiffIdx, for_upto, meetings_step_idx,
    meetings_step, getLecturesDiff, for_upto, lectures_step. simpl.
  destruct (compareLecture _ _), (compareMeeting _ _); reflexivity.
Qed.

(** C3, as stated, fails.  The old Subject has one meeting; the new one has
    that meeting with a lecture appended, and a second meeting.  The diff is
    the new meeting 2 (index 1) followed by the entry of the changed
    meeting 1 (index 0): not ascending. *)
Lemma getMeetingsDiff_not_ascending :
  getMeetingsDiff cmpL cmpM (cs101 [meeting1]) (cs101 [meeting1_grown; meeting2])
  = [ meeting2;
      {| subject := "Algorithms"; title := "Meeting 1"; lectures := [Some week2] |} ]
  /\ diff_indices cmpL cmpM (cs101 [meeting1]) (cs101 [meeting1_grown; meeting2])
     = [1; 0]
  /\ ~ StronglySorted lt
       (diff_indices cmpL cmpM (cs101 [meeting1])
          (cs101 [meeting1_grown; meeting2])).
Proof.
  split; [by vm_compute|]. split; [apply diff_indices_new_before_changed|].
  rewrite diff_indices_new_before_changed.
  intros Hsorted. apply StronglySorted_inv in Hsorted as [_ Hhead].
  apply Forall_inv in Hhead. lia.
Qed.

(** ** The structural comparisons meet what the theorems ask of them *)

Lemma compareLecture_structural_refl {Lecture : Type} `{EqDecision Lecture}
    (x : option Lecture) :
  compareLecture_structural x x = true.
Proof. unfold compareLecture_structural. by apply bool_decide_eq_true_2. Qed.

Lemma compareLecture_structural_spec {Lecture : Type} `{EqDecision Lecture}
    (x y : option Lecture) :
  compareLecture_structural x y = true <-> x = y.
Proof. unfold compareLecture_structural. apply bool_decide_eq_true. Qed.

Lemma compareLecture_structural_absent {Lecture : Type} `{EqDecision Lecture}
    (l : Lecture) :
  compareLecture_structural (Some l) None = false.
Proof. unfold compareLecture_structural. by apply bool_decide_eq_false_2. Qed.

Lemma compareMeeting_structural_refl {Lecture : Type}
    (compareLecture : option Lecture -> option Lecture -> bool) (m : Meeting Lecture) :
  (forall x, compareLecture x x = true) ->
  compareMeeting_structural compareLecture m m = true.
Proof.
  intros Hrefl. unfold compareMeeting_structural.
  rewrite !String.eqb_refl, Nat.eqb_refl. simpl.
  induction (lectures m) as [|x l IH]; simpl; [done|].
  by rewrite Hrefl, IH.
Qed.

Lemma cmpL_refl (l : LectureInfo) : cmpL (Some l) (Some l) = true.
Proof. apply compareLecture_structural_refl. Qed.

Lemma cmpL_absent (l : LectureInfo) : cmpL (Some l) None = false.
Proof. apply compareLecture_structural_absent. Qed.

Lemma cmpM_refl (m : Meeting LectureInfo) : cmpM m m = true.
Proof.
  apply compareMeeting_structural_refl. intros x.
  apply compareLecture_structural_refl.
Qed.

(** ** The scenarios of the specification *)

(** Scenario A: a third meeting with two lectures is appended. *)
Lemma scenario_A_appended_meeting :
  wf_subject (cs101 [meeting1; meeting2])
  /\ meetings (cs101 [meeting1; meeting2; meeting3])
     = meetings (cs101 [meeting1; meeting2]) ++ [meeting3]
  /\ getMeetingsDiff cmpL cmpM (cs101 [meeting1; meeting2])
       (cs101 [meeting1; meeting2; meeting3]) = [meeting3]
  /\ length (getMeetingsDiff cmpL cmpM (cs101 [meeting1; meeting2])
               (cs101 [meeting1; meeting2; meeting3])) = 3 - 2.
Proof.
  split; [solve_wf|]. split; [reflexivity|].
  apply (getMeetingsDiff_prefix_extension cmpL cmpM
           (cs101 [meeting1; meeting2]) (cs101 [meeting1; meeting2; meeting3])
           [meeting3] cmpL_refl cmpM_refl).
  - solve_wf.
  - reflexivity.
Defined.

(** Scenario C: the old and the new Subject are field for field the same. *)
Lemma scenario_C_identical :
  wf_subject (cs101 [meeting1; meeting2; meeting3])
  /\ getMeetingsDiff cmpL cmpM (cs101 [meeting1; meeting2; meeting3])
       (cs101 [meeting1; meeting2; meeting3]) = [].
Proof.
  split; [solve_wf|].
  apply (getMeetingsDiff_identical cmpL cmpM
           (cs101 [meeting1; meeting2; meeting3])
           (cs101 [meeting1; meeting2; meeting3]) cmpL_refl cmpM_refl).
  - solve_wf.
  - reflexivity.
Defined.

(** Scenario B at the level of lectures: of the two lectures of meeting 3,
    the one at index 1 is retitled. *)
Lemma scenario_B_retitled_lecture :
  length (lectures meeting3) = length (lectures meeting3_updated)
  /\ 1 < length (lectures meeting3)
  /\ cmpL (js_at (lectures meeting3) 1) (js_at (lectures meeting3_updated) 1) = false
  /\ getLecturesDiff cmpL meeting3 meeting3_updated = [Some quiz3_updated]
  /\ lectures meeting3_updated !! 1 = Some (Some quiz3_updated).
Proof.
  split; [reflexivity|]. split; [simpl; lia|]. split; [reflexivity|].
  apply (getLecturesDiff_single_change cmpL meeting3 meeting3_updated 1).
  - reflexivity.
  - simpl; lia.
  - reflexivity.
  - intros [|[|i]] Hi Hne; simpl in Hi; [reflexivity | congruence | lia].
Defined.

Lemma lost_lecture_reads_past_end :
  wf_meeting meeting3
  /\ length (lectures meeting3_short) < length (lectures meeting3)
  /\ getLecturesDiff cmpL meeting3 meeting3_short = [None]
  /\ In None (getLecturesDiff cmpL meeting3 meeting3_short)
  /\ ~ In None (lectures meeting3_short).
Proof.
  destruct (getLecturesDiff_reads_past_end cmpL meeting3 meeting3_short cmpL_absent)
    as (_ & Heq & Hin & Hnot).
  - solve_wf.
  - simpl; lia.
  - split; [solve_wf|]. split; [simpl; lia|]. split; [exact Heq|].
    split; [exact Hin|]. apply Hnot. solve_wf.
Defined.

(** * Properties of the Worker *)

(** ** Keeping a property of the world *)

Lemma preserves_ret {W E A : Type} (P : W -> Prop) (a : A) :
  preserves P (ret a : M W E A).
Proof. by intros w HP. Qed.

Lemma preserves_throw {W E A : Type} (P : W -> Prop) (e : E) :
  preserves P (throw e : M W E A).
Proof. by intros w HP. Qed.

Lemma preserves_bind {W E A B : Type} (P : W -> Prop)
    (c : M W E A) (k : A -> M W E B) :
  preserves P c -> (forall a, preserves P (k a)) -> preserves P (bind c k).
Proof.
  intros Hc Hk w HP. unfold bind. specialize (Hc w HP).
  destruct (c w) as [[a|e] w']; simpl in *; [by apply Hk|done].
Qed.

Lemma preserves_try_catch {W E A : Type} (P : W -> Prop)
    (c : M W E A) (handler : E -> M W E A) :
  preserves P c -> (forall e, preserves P (handler e)) ->
  preserves P (try_catch c handler).
Proof.
  intros Hc Hh w HP. unfold try_catch. specialize (Hc w HP).
  destruct (c w) as [[a|e] w']; simpl in *; [done|by apply Hh].
Qed.

Lemma preserves_promise_all {W E A : Type} (P : W -> Prop)
    (task : A -> M W E unit) (items : list A) :
  (forall x, preserves P (task x)) -> preserves P (promise_all task items).
Proof.
  intros Htask. induction items as [|x items IH]; intros w HP; simpl; [done|].
  specialize (Htask x w HP).
  destruct (task x w) as [[[]|e] w']; simpl in *; by apply IH.
Qed.

Section WorkerFacts.
Context {Lecture Attrs : Type}.
Variable compareLecture : option Lecture -> option Lecture -> bool.
Variable compareMeeting : Meeting Lecture -> Meeting Lecture -> bool.
Variable env : WorkerEnv Lecture Attrs.

Local Abbreviation World := (WorkerWorld Lecture Attrs).
Local Abbreviation task := (diffingTask compareLecture compareMeeting env).

Lemma diffingTask_lookup_failure
    (subj : Subject Lecture Attrs) (w : World) (message : string) :
  throws env (StorageGet (subject_key subj)) = Some (ErrorObj message) ->
  throws env (WebhookError ("Failed to get old data for: " +:+ courseId subj
                            +:+ ". Reason: " +:+ message)) = None ->
  task subj w
  = (Returned tt,
     {| kv := kv w;
        calls := calls w ++
          [ StorageGet (subject_key subj);
            LoggerError message;
            WebhookError ("Failed to get old data for: " +:+ courseId subj
                          +:+ ". Reason: " +:+ message) ] |}).
Proof.
  intros Hget Herr.
  unfold diffingTask, bind, try_catch, storage_get, logger_error,
    webhook_error, call, record, bind, throw, ret. simpl.
  rewrite Hget. simpl. rewrite Herr. simpl.
  by rewrite <- !app_assoc.
Qed.

Lemma diffingTask_without_snapshot (subj : Subject Lecture Attrs) (w : World) :
  kv w !! subject_key subj = None ->
  kv (snd (task subj w)) = kv w
  /\ puts (snd (task subj w)) = puts w.
Proof.
  intros Hnone.
  unfold diffingTask, bind, try_catch, storage_get, logger_error,
    webhook_error, call, record, bind, throw, ret. simpl.
  destruct (throws env (StorageGet (subject_key subj))) as [[message|]|]; simpl.
  - destruct (throws env (WebhookError _)); simpl; (split; [done|puts_unchanged]).
  - split; [done|puts_unchanged].
  - rewrite Hnone. simpl. split; [done|puts_unchanged].
Qed.

(** C1, as the code has it.  When the lookup of the old Subject throws an
    [Error], the task logs its message, dispatches an error notification
    that holds the course id, computes no diff and sends no change
    notification, and returns: the new Subject is NOT persisted (the store
    is as it was and [put] is not called). *)
Theorem diffingTask_lookup_failure_not_persisted
    (subj : Subject Lecture Attrs) (w : World) (message : string) :
  throws env (StorageGet (subject_key subj)) = Some (ErrorObj message) ->
  throws env (WebhookError ("Failed to get old data for: " +:+ courseId subj
                            +:+ ". Reason: " +:+ message)) = None ->
  task subj w
  = (Returned tt,
     {| kv := kv w;
        calls := calls w ++
          [ StorageGet (subject_key subj);
            LoggerError message;
            WebhookError ("Failed to get old data for: " +:+ courseId subj
                          +:+ ". Reason: " +:+ message) ] |})
  /\ kv (snd (task subj w)) = kv w
  /\ puts (snd (task subj w)) = puts w.
Proof.
  intros Hget Herr.
  rewrite (diffingTask_lookup_failure subj w message Hget Herr). simpl.
  split; [done|]. split; [done|puts_unchanged].
Qed.

(** C2, as the code has it.  When the store holds no snapshot of the
    Subject, the task returns after the lookup, whatever the collaborators
    do: the first collection of a Subject does NOT create its snapshot. *)
Theorem diffingTask_first_collection_not_persisted
    (subj : Subject Lecture Attrs) (w : World) :
  kv w !! subject_key subj = None ->
  kv (snd (task subj w)) !! subject_key subj = None
  /\ kv (snd (task subj w)) = kv w
  /\ puts (snd (task subj w)) = puts w.
Proof.
  intros Hnone.
  destruct (diffingTask_without_snapshot subj w Hnone) as [Hkv Hputs].
  by rewrite Hkv.
Qed.

(** ** A store without snapshots *)

Lemma record_keeps_empty (c : WorkerCall Lecture Attrs) :
  preserves (fun w : World => kv w = ∅) (record c).
Proof. by intros w HP. Qed.

Lemma call_keeps_empty {A : Type}
    (c : WorkerCall Lecture Attrs) (k : M World Thrown A) :
  preserves (fun w : World => kv w = ∅) k ->
  preserves (fun w : World => kv w = ∅) (call env c k).
Proof.
  intros Hk. unfold call. apply preserves_bind; [apply record_keeps_empty|].
  intros _. destruct (throws env c); [apply preserves_throw|done].
Qed.

Lemma batch_handler_keeps_empty (err : Thrown) :
  preserves (fun w : World => kv w = ∅)
    (match err with
     | ErrorObj message =>
         do! logger_error message in webhook_error env message
     | NotAnError => ret tt
     end).
Proof.
  destruct err as [message|]; [|apply preserves_ret].
  apply preserves_bind; [apply record_keeps_empty|]. intros _.
  apply call_keeps_empty, preserves_ret.
Qed.

(** On a store with no snapshot at all, a whole run persists nothing,
    whatever is collected and whatever the collaborators do. *)
Lemma handle_empty_store_stays_empty (slice_start slice_end : nat) (w : World) :
  kv w = ∅ ->
  kv (snd (handle compareLecture compareMeeting env slice_start slice_end w)) = ∅.
Proof.
  revert w. change (preserves (fun w : World => kv w = ∅)
    (handle compareLecture compareMeeting env slice_start slice_end)).
  unfold handle.
  apply preserves_bind; [apply call_keeps_empty, preserves_ret|]. intros _.
  apply preserves_bind; [apply record_keeps_empty|]. intros _.
  apply preserves_bind; [apply call_keeps_empty, preserves_ret|]. intros content.
  apply preserves_bind; [apply call_keeps_empty, preserves_ret|]. intros subjects.
  apply preserves_try_catch.
  - apply preserves_promise_all. intros subj w Hempty.
    destruct (diffingTask_without_snapshot subj w) as [Hkv _].
    + rewrite Hempty. apply lookup_empty.
    + by rewrite Hkv.
  - intros err. apply batch_handler_keeps_empty.
Qed.

End WorkerFacts.

(** ** Scenarios of the Worker *)

(** Scenario D: the lookup for course [CS101] throws [Error("boom")]. *)
Lemma scenario_D_lookup_failure :
  throws (portal_env lookup_fails [] [cs101 [meeting1]])
         (StorageGet (subject_key (cs101 [meeting1]))) = Some (ErrorObj "boom")
  /\ diffingTask cmpL cmpM (portal_env lookup_fails [] [cs101 [meeting1]])
       (cs101 [meeting1]) empty_world
     = (Returned tt,
        {| kv := ∅;
           calls := [ StorageGet "subject_CS101";
                      LoggerError "boom";
                      WebhookError "Failed to get old data for: CS101. Reason: boom" ] |})
  /\ kv (snd (diffingTask cmpL cmpM (portal_env lookup_fails [] [cs101 [meeting1]])
                (cs101 [meeting1]) empty_world)) = ∅
  /\ puts (snd (diffingTask cmpL cmpM (portal_env lookup_fails [] [cs101 [meeting1]])
                  (cs101 [meeting1]) empty_world)) = [].
Proof.
  split; [reflexivity|].
  exact (diffingTask_lookup_failure_not_persisted cmpL cmpM
           (portal_env lookup_fails [] [cs101 [meeting1]])
           (cs101 [meeting1]) empty_world "boom" eq_refl eq_refl).
Defined.

(** Scenario D, the whole run: nothing is stored under [subject_CS101]. *)
Example handle_scenario_D :
  handle cmpL cmpM (portal_env lookup_fails [] [cs101 [meeting1]]) 0 10 empty_world
  = (Returned tt,
     {| kv := ∅;
        calls := [ CollectCookies;
                   LoggerInfo "Fetching cache...";
                   FetchSubjectsContent;
                   CollectSubjects "<html></html>" 0 10;
                   StorageGet "subject_CS101";
                   LoggerError "boom";
                   WebhookError "Failed to get old data for: CS101. Reason: boom" ] |}).
Proof. by vm_compute. Qed.

(** The first collection of [CS101]: the store has no snapshot of it. *)
Lemma first_collection_not_persisted :
  kv empty_world !! subject_key (cs101 [meeting1]) = None
  /\ kv (snd (diffingTask cmpL cmpM (portal_env no_faults [] [cs101 [meeting1]])
                (cs101 [meeting1]) empty_world)) !! subject_key (cs101 [meeting1])
     = None
  /\ kv (snd (diffingTask cmpL cmpM (portal_env no_faults [] [cs101 [meeting1]])
                (cs101 [meeting1]) empty_world)) = kv empty_world
  /\ puts (snd (diffingTask cmpL cmpM (portal_env no_faults [] [cs101 [meeting1]])
                  (cs101 [meeting1]) empty_world)) = puts empty_world.
Proof.
  split; [reflexivity|].
  exact (diffingTask_first_collection_not_persisted cmpL cmpM
           (portal_env no_faults [] [cs101 [meeting1]])
           (cs101 [meeting1]) empty_world eq_refl).
Defined.

(** The whole first run, nothing failing: one lookup, no [put]. *)
Example handle_first_run :
  handle cmpL cmpM (portal_env no_faults [] [cs101 [meeting1]]) 0 10 empty_world
  = (Returned tt,
     {| kv := ∅;
        calls := [ CollectCookies;
                   LoggerInfo "Fetching cache...";
                   FetchSubjectsContent;
                   CollectSubjects "<html></html>" 0 10;
                   StorageGet "subject_CS101" ] |}).
Proof. by vm_compute. Qed.

(** A later run in which nothing fails: the change is notified and the new
    snapshot replaces the old one. *)
Example handle_changed_subject :
  handle cmpL cmpM
    (portal_env no_faults [cs101 [meeting1]] [cs101 [meeting1_updated]])
    0 10 stored_cs101
  = (Returned tt,
     {| kv := {[ "subject_CS101" := json_subject (cs101 [meeting1_updated]) ]};
        calls := [ CollectCookies;
                   LoggerInfo "Fetching cache...";
                   FetchSubjectsContent;
                   CollectSubjects "<html></html>" 0 10;
                   StorageGet "subject_CS101";
                   WebhookNotify (cs101 [meeting1_updated]);
                   StoragePut "subject_CS101"
                     (json_subject (cs101 [meeting1_updated])) ] |}).
Proof. by vm_compute. Qed.

(** The same run with the change notification failing: the rejection leaves
    the task before [put], the batch handler reports it, and the store keeps
    the old snapshot. *)
Example handle_notify_failure_not_persisted :
  handle cmpL cmpM
    (portal_env notify_fails [cs101 [meeting1]] [cs101 [meeting1_updated]])
    0 10 stored_cs101
  = (Returned tt,
     {| kv := {[ "subject_CS101" := json_subject (cs101 [meeting1]) ]};
        calls := [ CollectCookies;
                   LoggerInfo "Fetching cache...";
                   FetchSubjectsContent;
                   CollectSubjects "<html></html>" 0 10;
                   StorageGet "subject_CS101";
                   WebhookNotify (cs101 [meeting1_updated]);
                   LoggerError "webhook down";
                   WebhookError "webhook down" ] |}).
Proof. by vm_compute. Qed.

(** * Properties of the Scraper *)

Lemma string_length_zero (s : string) : (String.length s =? 0) = true <-> s = "".
Proof. destruct s; simpl; split; intros H; done. Qed.

(** C9.  The constructor throws exactly when one of the four required
    options is the empty string, what it throws is then a validation error,
    and in every case it calls no collaborator: the world is as it was. *)
Theorem construct_validation (options : ScraperOptions) (w : ScraperWorld) :
  ((exists field, fst (construct options w) = Threw (ValidationError field))
   <-> (siakadUrl options = "" \/ lmsUrl options = ""
        \/ nim options = "" \/ password options = ""))
  /\ ((exists e, fst (construct options w) = Threw e)
      <-> (exists field, fst (construct options w) = Threw (ValidationError field)))
  /\ snd (construct options w) = w.
Proof.
  unfold construct.
  destruct options as [s l n p]; simpl.
  destruct s as [|? ?], l as [|? ?], n as [|? ?], p as [|? ?]; simpl;
    (split; [split; [intros [field H]; try discriminate H; tauto
                    | intros; try (by eexists);
                      repeat match goal with H : _ \/ _ |- _ => destruct H end;
                      discriminate ]
            | split; [split; [intros [e H]; try discriminate H; by eexists
                             | intros [field H]; by eexists ]
                     | reflexivity ] ]).
Qed.

Section ScraperFacts.
Context {Lecture : Type}.
Variable env : ScraperEnv Lecture.

(** C8.  [login] on a Scraper that has no page handle throws the
    not-initialized error that names [this._page], and calls nothing: the
    world, its trace of calls included, is as it was. *)
Theorem login_without_page (this : Scraper) (w : ScraperWorld) :
  this_page w = None ->
  login env this w = (Threw (NotInitializedError "this._page"), w)
  /\ scraper_calls (snd (login env this w)) = scraper_calls w.
Proof.
  intros Hpage. unfold login, bind, get_this_page. rewrite Hpage. by simpl.
Qed.

End ScraperFacts.

(** [login] right after construction, before [init]. *)
Lemma login_before_init :
  this_page uninitialized = None
  /\ login lms_env lms_scraper uninitialized
     = (Threw (NotInitializedError "this._page"), uninitialized)
  /\ scraper_calls (snd (login lms_env lms_scraper uninitialized))
     = scraper_calls uninitialized.
Proof.
  split; [reflexivity|].
  exact (login_without_page lms_env lms_scraper uninitialized eq_refl).
Defined.

(** ** The audit trail *)

Section AuditTrail.
Context {Lecture : Type}.
Variable env : ScraperEnv Lecture.
Variable this : Scraper.
Hypothesis no_fault : forall c, scraper_throws env c = None.

(** What is stored for a URL: the serialised result of the collector on the
    content of the lecture page. *)
Local Abbreviation stored url :=
  (stringify_meetings env (collect env (page_content env (_lmsUrl this +:+ url)))).

Lemma audit_puts_app (w : ScraperWorld) (cs : list ScraperCall) p f u a :
  audit_puts {| this_page := p; fresh_page := f; page_url := u; audit := a;
                scraper_calls := scraper_calls w ++ cs |}
  = audit_puts w
    ++ omap (fun c => match c with AuditPut k v => Some (k, v) | _ => None end) cs.
Proof. unfold audit_puts. simpl. apply omap_app. Qed.

(** A call that does not throw is recorded and goes on. *)
Lemma scall_run {A : Type} (c : ScraperCall)
    (k : M ScraperWorld ScraperThrown A) (w : ScraperWorld) :
  scall env c k w
  = k {| this_page := this_page w; fresh_page := fresh_page w;
         page_url := page_url w; audit := audit w;
         scraper_calls := scraper_calls w ++ [c] |}.
Proof using no_fault. unfold scall, bind, srecord. simpl. by rewrite no_fault. Qed.

Lemma snapshotTask_run (timestamp : N) (url : string) (w : ScraperWorld) :
  snapshotTask env this timestamp url w
  = (Returned tt,
     {| this_page := this_page w;
        fresh_page := S (fresh_page w);
        page_url := <[fresh_page w := _lmsUrl this +:+ url]> (page_url w);
        audit := <[snapshot_key timestamp url := stored url]> (audit w);
        scraper_calls := scraper_calls w ++
          [ BrowserNewPage;
            PageVisit (fresh_page w) (_lmsUrl this +:+ url);
            PageGetContent (fresh_page w);
            CollectorCollect (page_content env (_lmsUrl this +:+ url));
            AuditPut (snapshot_key timestamp url) (stored url);
            PageClose (fresh_page w) ] |}).
Proof using no_fault.
  unfold snapshotTask, browser_newPage, page_visit, page_getContent,
    collector_collect, audit_put, page_close, bind.
  repeat (rewrite scall_run; simpl).
  rewrite !lookup_insert_eq. simpl.
  by rewrite <- !app_assoc.
Qed.

End AuditTrail.

(** C4, as stated, fails.  The lecture page shows
    [<html>Meeting 1</html>]; what is stored under the key of its URL is
    not that raw content but the serialised meetings collected from it. *)
Lemma snapshot_is_not_raw_content :
  page_content lms_env (_lmsUrl lms_scraper +:+ "/lecture/view/1234")
  = "<html>Meeting 1</html>"
  /\ audit_puts (snd (savePageSnapshots lms_env lms_scraper lms_landing))
     = [(snapshot_key 1700000000000 "/lecture/view/1234",
         json_meetings [meeting1])]
  /\ snapshot_key 1700000000000 "/lecture/view/1234" = "1700000000000_1234"
  /\ audit (snd (savePageSnapshots lms_env lms_scraper lms_landing))
       !! "1700000000000_1234"
     <> Some (page_content lms_env (_lmsUrl lms_scraper +:+ "/lecture/view/1234")).
Proof.
  split; [by vm_compute|]. split; [by vm_compute|]. split; [by vm_compute|].
  intros H. vm_compute in H. discriminate H.
Qed.

(** * Further properties of the diff engine *)

Section DiffEngineMore.
Context {Lecture Attrs : Type}.
Variable compareLecture : option Lecture -> option Lecture -> bool.
Variable compareMeeting : Meeting Lecture -> Meeting Lecture -> bool.

Lemma lectures_changed_prefix (olds appended : list (option Lecture)) :
  (forall x, In x olds -> compareLecture x x = true) ->
  lectures_changed compareLecture olds (olds ++ appended) = [].
Proof.
  induction olds as [|o olds IH]; intros Hrefl; simpl; [done|].
  unfold lecture_entry, js_at. simpl.
  rewrite Hrefl by (by left). apply IH.
  intros x Hx. apply Hrefl. by right.
Qed.

(** X1.  When the lectures of the new meeting are those of the old one followed
    by appended lectures, the lectures diff is exactly the appended
    lectures. *)
Theorem getLecturesDiff_appended (old new : Meeting Lecture)
    (appended : list (option Lecture)) :
  (forall l, compareLecture (Some l) (Some l) = true) ->
  wf_meeting old ->
  lectures new = lectures old ++ appended ->
  getLecturesDiff compareLecture old new = appended.
Proof.
  intros Hrefl Hwf Hnew.
  rewrite getLecturesDiff_unfold, Hnew, drop_app_length.
  rewrite lectures_changed_prefix; [by rewrite app_nil_r|].
  intros x Hx. unfold wf_meeting in Hwf. rewrite Forall_forall in Hwf.
  destruct (Hwf x) as [l ->]; [by apply list_elem_of_In|]. apply Hrefl.
Qed.

Lemma meeting_entry_at_most_one (o n : Meeting Lecture) :
  length (meeting_entry compareLecture compareMeeting o n) <= 1.
Proof. unfold meeting_entry. destruct (_ && _); simpl; lia. Qed.

Lemma meetings_changed_length (olds news : list (Meeting Lecture)) :
  length (meetings_changed compareLecture compareMeeting olds news)
  <= Nat.min (length olds) (length news).
Proof.
  revert news. induction olds as [|o olds IH]; intros [|n news]; simpl; try lia.
  rewrite length_app.
  pose proof (meeting_entry_at_most_one o n). specialize (IH news). lia.
Qed.

(** X2.  The meetings diff never has more entries than the new Subject has
    meetings. *)
Theorem getMeetingsDiff_length_bound (old new : Subject Lecture Attrs) :
  length (getMeetingsDiff compareLecture compareMeeting old new)
  <= length (meetings new).
Proof.
  rewrite getMeetingsDiff_unfold, length_app, length_drop.
  pose proof (meetings_changed_length (meetings old) (meetings new)). lia.
Qed.

(** X3.  When the new meeting has at least as many lectures as the old one,
    every entry of the lectures diff is an entry of the new meeting's
    lecture array: a well-formed new meeting yields no [undefined]. *)
Theorem getLecturesDiff_entries_of_new (old new : Meeting Lecture)
    (x : option Lecture) :
  length (lectures old) <= length (lectures new) ->
  In x (getLecturesDiff compareLecture old new) ->
  In x (lectures new).
Proof.
  intros Hlen. rewrite getLecturesDiff_by_index. intros Hin.
  apply in_app_or in Hin as [Hin|Hin].
  - apply list_elem_of_In. apply list_elem_of_In in Hin.
    rewrite <- (take_drop (length (lectures old)) (lectures new)).
    apply elem_of_app. by right.
  - apply in_flat_map in Hin as (i & Hi & Hx). apply in_seq in Hi.
    unfold lecture_entry in Hx. destruct (compareLecture _ _); [done|].
    destruct Hx as [<-|[]].
    destruct (lookup_lt_is_Some_2 (lectures new) i) as [y Hy]; [lia|].
    unfold js_at. rewrite Hy. simpl.
    apply list_elem_of_In. by apply list_elem_of_lookup_2 with i.
Qed.

Lemma meetings_changed_take_self (olds : list (Meeting Lecture)) (n : nat) :
  (forall l, compareLecture (Some l) (Some l) = true) ->
  (forall m, compareMeeting m m = true) ->
  Forall wf_meeting olds ->
  meetings_changed compareLecture compareMeeting olds (take n olds) = [].
Proof.
  intros HL HM Hwf. revert n.
  induction Hwf as [|o olds Ho Hwf IH]; intros [|n]; simpl; try done.
  unfold meeting_entry. by rewrite HM, getLecturesDiff_same, IH.
Qed.

(** X4.  Meetings removed from the end are never reported: when the new Subject
    has only the first [n] meetings of the old one, the diff is empty. *)
Theorem getMeetingsDiff_truncation_unreported (old new : Subject Lecture Attrs)
    (n : nat) :
  (forall l, compareLecture (Some l) (Some l) = true) ->
  (forall m, compareMeeting m m = true) ->
  wf_subject old ->
  meetings new = take n (meetings old) ->
  getMeetingsDiff compareLecture compareMeeting old new = [].
Proof.
  intros HL HM Hwf Hnew.
  rewrite getMeetingsDiff_unfold, Hnew, drop_ge by (rewrite length_take; lia).
  by apply meetings_changed_take_self.
Qed.

Lemma meetings_changed_provenance (olds news : list (Meeting Lecture))
    (e : Meeting Lecture) :
  In e (meetings_changed compareLecture compareMeeting olds news) ->
  exists o n, In o olds /\ In n news
    /\ subject e = subject n /\ title e = title n
    /\ lectures e = getLecturesDiff compareLecture o n.
Proof.
  revert news. induction olds as [|o olds IH]; intros [|n news]; simpl; try done.
  intros Hin. apply in_app_or in Hin as [Hin|Hin].
  - unfold meeting_entry in Hin. destruct (_ && _); [done|].
    destruct Hin as [<-|[]]. exists o, n. simpl. tauto.
  - destruct (IH news Hin) as (o' & n' & ? & ? & ?).
    exists o', n'. tauto.
Qed.

(** X5.  Every entry of the meetings diff is either a meeting of the new Subject
    as it is, or carries the subject and the title of a meeting of the new
    Subject and, as lectures, the lectures diff against a meeting of the
    old Subject. *)
Theorem getMeetingsDiff_provenance (old new : Subject Lecture Attrs)
    (e : Meeting Lecture) :
  In e (getMeetingsDiff compareLecture compareMeeting old new) ->
  In e (meetings new)
  \/ exists o n, In o (meetings old) /\ In n (meetings new)
       /\ subject e = subject n /\ title e = title n
       /\ lectures e = getLecturesDiff compareLecture o n.
Proof.
  rewrite getMeetingsDiff_unfold. intros Hin.
  apply in_app_or in Hin as [Hin|Hin].
  - left. apply list_elem_of_In. apply list_elem_of_In in Hin.
    rewrite <- (take_drop (length (meetings old)) (meetings new)).
    apply elem_of_app. by right.
  - right. by apply meetings_changed_provenance.
Qed.

Lemma meetings_changed_app (pre pre' post post' : list (Meeting Lecture)) :
  length pre = length pre' ->
  meetings_changed compareLecture compareMeeting (pre ++ post) (pre' ++ post')
  = meetings_changed compareLecture compareMeeting pre pre'
    ++ meetings_changed compareLecture compareMeeting post post'.
Proof.
  revert pre'. induction pre as [|o pre IH]; intros [|n pre'] Hlen;
    simpl in *; try done.
  rewrite IH by lia. by rewrite app_assoc.
Qed.

(** X6.  When exactly one meeting changed (its comparison fails or its lectures
    diff is not empty) and the Subjects are otherwise the same, the diff is
    one entry: the new subject and title of that meeting and, as lectures,
    only its lectures diff, not its whole lecture array. *)
Theorem getMeetingsDiff_single_change (old new : Subject Lecture Attrs)
    (pre post : list (Meeting Lecture)) (o n : Meeting Lecture) :
  (forall l, compareLecture (Some l) (Some l) = true) ->
  (forall m, compareMeeting m m = true) ->
  Forall wf_meeting pre -> Forall wf_meeting post ->
  meetings old = pre ++ o :: post ->
  meetings new = pre ++ n :: post ->
  compareMeeting n o = false \/ getLecturesDiff compareLecture o n <> [] ->
  getMeetingsDiff compareLecture compareMeeting old new
  = [ {| subject := subject n; title := title n;
         lectures := getLecturesDiff compareLecture o n |} ].
Proof.
  intros HL HM Hpre Hpost Hold Hnew Hchanged.
  rewrite getMeetingsDiff_unfold, Hold, Hnew.
  rewrite drop_ge by (rewrite !length_app; simpl; lia). simpl.
  rewrite meetings_changed_app by done. simpl.
  rewrite <- (app_nil_r pre) at 2. rewrite <- (app_nil_r post) at 2.
  rewrite !meetings_changed_extension by done. simpl. rewrite app_nil_r.
  unfold meeting_entry.
  destruct Hchanged as [Hcmp|Hdiff]; [by rewrite Hcmp|].
  destruct (getLecturesDiff compareLecture o n) eqn:E; [done|].
  simpl. by rewrite andb_false_r.
Qed.

End DiffEngineMore.

(** The old Subject has three meetings, the new one its first two. *)
Lemma truncated_subject_unreported :
  wf_subject (cs101 [meeting1; meeting2; meeting3])
  /\ meetings (cs101 [meeting1; meeting2])
     = take 2 (meetings (cs101 [meeting1; meeting2; meeting3]))
  /\ getMeetingsDiff cmpL cmpM (cs101 [meeting1; meeting2; meeting3])
       (cs101 [meeting1; meeting2]) = [].
Proof.
  split; [solve_wf|]. split; [reflexivity|].
  apply (getMeetingsDiff_truncation_unreported cmpL cmpM
           (cs101 [meeting1; meeting2; meeting3]) (cs101 [meeting1; meeting2]) 2
           cmpL_refl cmpM_refl).
  - solve_wf.
  - reflexivity.
Defined.

(** Meeting 3 gains its two lectures over a meeting that had one. *)
Lemma appended_lecture_reported :
  wf_meeting meeting3_short
  /\ lectures meeting3 = lectures meeting3_short ++ [Some quiz3]
  /\ getLecturesDiff cmpL meeting3_short meeting3 = [Some quiz3].
Proof.
  split; [solve_wf|]. split; [reflexivity|].
  apply (getLecturesDiff_appended cmpL meeting3_short meeting3 [Some quiz3] cmpL_refl).
  - solve_wf.
  - reflexivity.
Defined.

(** The entry of the lectures diff of scenario B is a lecture of the new
    meeting. *)
Lemma retitled_lecture_is_of_new :
  length (lectures meeting3) <= length (lectures meeting3_updated)
  /\ In (Some quiz3_updated) (getLecturesDiff cmpL meeting3 meeting3_updated)
  /\ In (Some quiz3_updated) (lectures meeting3_updated).
Proof.
  assert (Hlen : length (lectures meeting3) <= length (lectures meeting3_updated))
    by (simpl; lia).
  assert (Hin : In (Some quiz3_updated) (getLecturesDiff cmpL meeting3 meeting3_updated))
    by (vm_compute; tauto).
  split; [exact Hlen|]. split; [exact Hin|].
  exact (getLecturesDiff_entries_of_new cmpL meeting3 meeting3_updated
           (Some quiz3_updated) Hlen Hin).
Defined.

(** The entry of the changed meeting of the counterexample to the order. *)
Lemma changed_entry_provenance :
  In {| subject := "Algorithms"; title := "Meeting 1"; lectures := [Some week2] |}
     (getMeetingsDiff cmpL cmpM (cs101 [meeting1]) (cs101 [meeting1_grown; meeting2]))
  /\ (In {| subject := "Algorithms"; title := "Meeting 1"; lectures := [Some week2] |}
         (meetings (cs101 [meeting1_grown; meeting2]))
      \/ exists o n, In o (meetings (cs101 [meeting1]))
           /\ In n (meetings (cs101 [meeting1_grown; meeting2]))
           /\ subject {| subject := "Algorithms"; title := "Meeting 1";
                         lectures := [Some week2] |} = subject n
           /\ title {| subject := "Algorithms"; title := "Meeting 1";
                       lectures := [Some week2] |} = title n
           /\ lectures {| subject := "Algorithms"; title := "Meeting 1";
                          lectures := [Some week2] |}
              = getLecturesDiff cmpL o n).
Proof.
  assert (Hin : In {| subject := "Algorithms"; title := "Meeting 1";
                      lectures := [Some week2] |}
     (getMeetingsDiff cmpL cmpM (cs101 [meeting1]) (cs101 [meeting1_grown; meeting2])))
    by (vm_compute; tauto).
  split; [exact Hin|].
  exact (getMeetingsDiff_provenance cmpL cmpM (cs101 [meeting1])
           (cs101 [meeting1_grown; meeting2]) _ Hin).
Defined.

(** Scenario B: meeting 1 of two has its lecture retitled; and meeting 1
    is renamed, its lecture as it was: the entry has no lecture at all. *)
Lemma scenario_B_single_entry :
  getMeetingsDiff cmpL cmpM (cs101 [meeting1; meeting2])
    (cs101 [meeting1_updated; meeting2])
  = [ {| subject := "Algorithms"; title := "Meeting 1";
         lectures := [Some week1_updated] |} ].
Proof.
  apply (getMeetingsDiff_single_change cmpL cmpM
           (cs101 [meeting1; meeting2]) (cs101 [meeting1_updated; meeting2])
           [] [meeting2] meeting1 meeting1_updated cmpL_refl cmpM_refl).
  - by apply Forall_nil.
  - solve_wf.
  - reflexivity.
  - reflexivity.
  - left. reflexivity.
Defined.

Example renamed_meeting_entry_has_no_lecture :
  getMeetingsDiff cmpL cmpM (cs101 [meeting1; meeting2])
    (cs101 [meeting1_renamed; meeting2])
  = [ {| subject := "Algorithms"; title := "Meeting 1 (moved)"; lectures := [] |} ].
Proof. by vm_compute. Qed.

(** * Further properties of the Worker *)

Lemma preserves_promise_all_in {W E A : Type} (P : W -> Prop)
    (task : A -> M W E unit) (items : list A) :
  (forall x, In x items -> preserves P (task x)) ->
  preserves P (promise_all task items).
Proof.
  induction items as [|x items IH]; intros Htask w HP; simpl; [done|].
  assert (Hx : P (snd (task x w))) by (apply Htask; [by left|done]).
  assert (Hrest : preserves P (promise_all task items))
    by (apply IH; intros y Hy; apply Htask; by right).
  destruct (task x w) as [[[]|e] w']; simpl in *; by apply Hrest.
Qed.

Section WorkerMore.
Context {Lecture Attrs : Type}.
Variable compareLecture : option Lecture -> option Lecture -> bool.
Variable compareMeeting : Meeting Lecture -> Meeting Lecture -> bool.
Variable env : WorkerEnv Lecture Attrs.

Local Abbreviation World := (WorkerWorld Lecture Attrs).
Local Abbreviation task := (diffingTask compareLecture compareMeeting env).
Local Abbreviation owed := (change_notification compareLecture compareMeeting).

(** A call that does not throw is recorded and goes on; one that throws
    is recorded and throws. *)
Lemma call_run {A : Type} (c : WorkerCall Lecture Attrs)
    (k : M World Thrown A) (w : World) :
  throws env c = None ->
  call env c k w = k {| kv := kv w; calls := calls w ++ [c] |}.
Proof. intros Hc. unfold call, bind, record. simpl. by rewrite Hc. Qed.

Lemma call_throw {A : Type} (c : WorkerCall Lecture Attrs)
    (k : M World Thrown A) (w : World) (t : Thrown) :
  throws env c = Some t ->
  call env c k w = (Threw t, {| kv := kv w; calls := calls w ++ [c] |}).
Proof. intros Hc. unfold call, bind, record. simpl. by rewrite Hc. Qed.

(** The run of a task up to the persistence block, when the snapshot is
    there, parses, and the notification owed (if any) goes through. *)
Ltac run_to_put Hget Hkv Hparse Hnotify :=
  unfold diffingTask, bind, try_catch, storage_get, webhook_notify;
  rewrite (call_run _ _ _ Hget); simpl; rewrite Hkv, Hparse; simpl;
  unfold change_notification in Hnotify |- *;
  destruct ((0 <? length (meetings _)) && (0 <? length (meetings _))) eqn:Hboth;
  simpl in Hnotify |- *;
  [ destruct (0 <? length (getMeetingsDiff _ _ _ _)) eqn:Hdiff;
    simpl in Hnotify |- *;
    [ apply Forall_inv in Hnotify; rewrite (call_run _ _ _ Hnotify); simpl | ]
  | ].

(** X7.  With a snapshot in the store and no call failing, the task looks the
    snapshot up, sends the change notification owed (none when a Subject
    has no meeting or the diff is empty), then stores the new Subject under
    its key: these calls and no other, in this order. *)
Theorem diffingTask_success (subj old : Subject Lecture Attrs) (w : World)
    (s : string) :
  throws env (StorageGet (subject_key subj)) = None ->
  kv w !! subject_key subj = Some s ->
  JSON_parse env s = ParsedSubject old ->
  Forall (fun c => throws env c = None) (owed old subj) ->
  throws env (StoragePut (subject_key subj) (JSON_stringify env subj)) = None ->
  task subj w
  = (Returned tt,
     {| kv := <[subject_key subj := JSON_stringify env subj]> (kv w);
        calls := calls w ++ [StorageGet (subject_key subj)] ++ owed old subj
                 ++ [StoragePut (subject_key subj) (JSON_stringify env subj)] |}).
Proof.
  intros Hget Hkv Hparse Hnotify Hput.
  run_to_put Hget Hkv Hparse Hnotify;
    unfold storage_put; rewrite (call_run _ _ _ Hput); simpl;
    by rewrite <- ?app_assoc.
Qed.

(** X8.  When only the write fails, with an [Error], the task still completes:
    it logs the message and dispatches the error notification that names
    the course; the old snapshot stays. *)
Theorem diffingTask_put_failure (subj old : Subject Lecture Attrs) (w : World)
    (s message : string) :
  throws env (StorageGet (subject_key subj)) = None ->
  kv w !! subject_key subj = Some s ->
  JSON_parse env s = ParsedSubject old ->
  Forall (fun c => throws env c = None) (owed old subj) ->
  throws env (StoragePut (subject_key subj) (JSON_stringify env subj))
  = Some (ErrorObj message) ->
  throws env (WebhookError ("Failed to save new data for: " +:+ courseId subj
                            +:+ ". Reason: " +:+ message)) = None ->
  task subj w
  = (Returned tt,
     {| kv := kv w;
        calls := calls w ++ [StorageGet (subject_key subj)] ++ owed old subj
                 ++ [ StoragePut (subject_key subj) (JSON_stringify env subj);
                      LoggerError message;
                      WebhookError ("Failed to save new data for: "
                                    +:+ courseId subj +:+ ". Reason: " +:+ message) ] |}).
Proof.
  intros Hget Hkv Hparse Hnotify Hput Herr.
  run_to_put Hget Hkv Hparse Hnotify;
    unfold storage_put, logger_error, webhook_error, bind, record;
    rewrite (call_throw _ _ _ _ Hput); simpl;
    rewrite (call_run _ _ _ Herr); simpl;
    by rewrite <- ?app_assoc.
Qed.

(** X9.  A stored snapshot that does not parse is never replaced: the task
    rejects with what [JSON.parse] threw, right after the lookup. *)
Theorem diffingTask_parse_failure (subj : Subject Lecture Attrs) (w : World)
    (s : string) (t : Thrown) :
  throws env (StorageGet (subject_key subj)) = None ->
  kv w !! subject_key subj = Some s ->
  JSON_parse env s = ParseThrows t ->
  task subj w
  = (Threw t, {| kv := kv w; calls := calls w ++ [StorageGet (subject_key subj)] |}).
Proof.
  intros Hget Hkv Hparse.
  unfold diffingTask, bind, try_catch, storage_get.
  rewrite (call_run _ _ _ Hget). simpl. by rewrite Hkv, Hparse.
Qed.

(** X10.  When the change notification owed fails, the task rejects before the
    write: the old snapshot stays, so the next run owes the notification
    again. *)
Theorem diffingTask_notify_failure (subj old : Subject Lecture Attrs) (w : World)
    (s : string) (c : WorkerCall Lecture Attrs) (t : Thrown) :
  throws env (StorageGet (subject_key subj)) = None ->
  kv w !! subject_key subj = Some s ->
  JSON_parse env s = ParsedSubject old ->
  owed old subj = [c] ->
  throws env c = Some t ->
  task subj w
  = (Threw t,
     {| kv := kv w; calls := calls w ++ [StorageGet (subject_key subj); c] |}).
Proof.
  intros Hget Hkv Hparse Howed Hc.
  unfold diffingTask, bind, try_catch, storage_get, webhook_notify.
  rewrite (call_run _ _ _ Hget). simpl. rewrite Hkv, Hparse. simpl.
  unfold change_notification in Howed.
  destruct ((0 <? length (meetings subj)) && (0 <? length (meetings old)));
    simpl in Howed |- *; [|done].
  destruct (0 <? length (getMeetingsDiff _ _ _ _)); simpl in Howed |- *; [|done].
  injection Howed as <-. rewrite (call_throw _ _ _ _ Hc). simpl.
  by rewrite <- ?app_assoc.
Qed.

(** ** What a task and a run keep *)

Lemma call_preserves {A : Type} (P : World -> Prop)
    (c : WorkerCall Lecture Attrs) (k : M World Thrown A) :
  (forall c w, P w -> P {| kv := kv w; calls := calls w ++ [c] |}) ->
  preserves P k -> preserves P (call env c k).
Proof.
  intros Hrec Hk. unfold call. apply preserves_bind.
  - intros w HP. by apply Hrec.
  - intros _. destruct (throws env c); [apply preserves_throw|done].
Qed.

(** A property of the world that every recorded call keeps, and every
    write under the key of the Subject keeps, is kept by the task. *)
Lemma diffingTask_preserves (P : World -> Prop) (subj : Subject Lecture Attrs) :
  (forall c w, P w -> P {| kv := kv w; calls := calls w ++ [c] |}) ->
  (forall v w, P w -> P {| kv := <[subject_key subj := v]> (kv w); calls := calls w |}) ->
  preserves P (task subj).
Proof.
  intros Hrec Hput.
  assert (Hlog : forall m, preserves P (logger_error m))
    by (intros m w HP; by apply Hrec).
  assert (Herr : forall m, preserves P (webhook_error env m))
    by (intros m; apply call_preserves; [done|apply preserves_ret]).
  unfold diffingTask. apply preserves_bind.
  - apply preserves_try_catch.
    + apply call_preserves; [done|]. by intros w HP.
    + intros [m|]; [|apply preserves_ret].
      apply preserves_bind; [apply Hlog|]. intros _.
      apply preserves_bind; [apply Herr|]. intros _. apply preserves_ret.
  - intros [s|]; [|apply preserves_ret].
    apply preserves_bind.
    { destruct (JSON_parse env s);
        [apply preserves_throw|apply preserves_ret|apply preserves_ret]. }
    intros oldSubject. apply preserves_bind.
    { destruct oldSubject as [old|]; [|apply preserves_ret].
      destruct (_ && _); [|apply preserves_ret].
      destruct (0 <? _); [|apply preserves_ret].
      apply call_preserves; [done|apply preserves_ret]. }
    intros _. apply preserves_try_catch.
    + apply call_preserves; [done|]. intros w HP. by apply Hput.
    + intros [m|]; [|apply preserves_ret].
      apply preserves_bind; [apply Hlog|]. intros _. apply Herr.
Qed.

Lemma handle_preserves (P : World -> Prop) (slice_start slice_end : nat) :
  (forall c w, P w -> P {| kv := kv w; calls := calls w ++ [c] |}) ->
  (forall subj v w,
     In subj (collected env (subjectsContent env) slice_start slice_end) ->
     P w -> P {| kv := <[subject_key subj := v]> (kv w); calls := calls w |}) ->
  preserves P (handle compareLecture compareMeeting env slice_start slice_end).
Proof.
  intros Hrec Hput w HP.
  assert (Htasks : preserves P
    (try_catch
       (promise_all task (collected env (subjectsContent env) slice_start slice_end))
       (fun err => match err with
                   | ErrorObj message =>
                       do! logger_error message in webhook_error env message
                   | NotAnError => ret tt
                   end))).
  { apply preserves_try_catch.
    - apply preserves_promise_all_in. intros subj Hin.
      apply diffingTask_preserves; [done|]. intros v w' HP'. by apply Hput.
    - intros [m|]; [|apply preserves_ret].
      apply preserves_bind; [intros w' HP'; by apply Hrec|]. intros _.
      apply call_preserves; [done|apply preserves_ret]. }
  assert (Hrecs : forall m cs, P {| kv := m; calls := cs |} ->
            forall c, P {| kv := m; calls := cs ++ [c] |})
    by (intros m cs HP' c; exact (Hrec c _ HP')).
  destruct w as [m cs].
  unfold handle, bind, collectCookies, logger_info, fetchSubjectsContent,
    collectSubjects, record, ret.
  destruct (throws env CollectCookies) as [t|] eqn:H1;
    [rewrite (call_throw _ _ _ _ H1); simpl; by apply Hrecs
    |rewrite (call_run _ _ _ H1); simpl].
  destruct (throws env FetchSubjectsContent) as [t|] eqn:H2;
    [rewrite (call_throw _ _ _ _ H2); simpl; by do 3 apply Hrecs
    |rewrite (call_run _ _ _ H2); simpl].
  destruct (throws env (CollectSubjects (subjectsContent env) slice_start slice_end))
    as [t|] eqn:H3;
    [rewrite (call_throw _ _ _ _ H3); simpl; by do 4 apply Hrecs
    |rewrite (call_run _ _ _ H3); simpl].
  apply Htasks. by do 4 apply Hrecs.
Qed.

(** X11.  A run writes under the keys of the Subjects it collected and under no
    other: what the store holds under any other key is as it was,
    whatever fails. *)
Theorem handle_other_keys_untouched (slice_start slice_end : nat) (w : World)
    (key : string) :
  (forall subj,
     In subj (collected env (subjectsContent env) slice_start slice_end) ->
     subject_key subj <> key) ->
  kv (snd (handle compareLecture compareMeeting env slice_start slice_end w)) !! key
  = kv w !! key.
Proof.
  intros Hkeys.
  apply (handle_preserves (fun w' : World => kv w' !! key = kv w !! key)); [done| |done].
  intros subj v w' Hin HP. simpl. rewrite lookup_insert_ne; [done|by apply Hkeys].
Qed.

(** X12.  When the session cannot be established, the run rejects with what
    [collectCookies] threw: nothing is fetched, looked up, notified or
    stored, and no error is logged or reported. *)
Theorem handle_cookies_failure (slice_start slice_end : nat) (w : World)
    (t : Thrown) :
  throws env CollectCookies = Some t ->
  handle compareLecture compareMeeting env slice_start slice_end w
  = (Threw t, {| kv := kv w; calls := calls w ++ [CollectCookies] |}).
Proof.
  intros Hcookies. unfold handle, bind, collectCookies.
  by rewrite (call_throw _ _ _ _ Hcookies).
Qed.

(** ** No Subject is skipped *)

Lemma diffingTask_looks_up (subj : Subject Lecture Attrs) (w : World) :
  In (StorageGet (subject_key subj)) (calls (snd (task subj w))).
Proof.
  unfold diffingTask, bind, try_catch, storage_get, storage_put, webhook_notify,
    webhook_error, logger_error, call, record, bind, throw, ret. simpl.
  destruct (throws env (StorageGet (subject_key subj))) as [[m|]|]; simpl.
  - destruct (throws env (WebhookError _)); simpl;
      rewrite ?in_app_iff; simpl; tauto.
  - rewrite ?in_app_iff; simpl; tauto.
  - repeat match goal with
           | |- context [kv ?w !! ?k] => destruct (kv w !! k); simpl
           | |- context [JSON_parse env ?s] => destruct (JSON_parse env s); simpl
           | |- context [throws env ?c] => destruct (throws env c) as [[?|]|]; simpl
           | |- context [if ?b then _ else _] => destruct b; simpl
           end;
      rewrite ?in_app_iff; simpl; tauto.
Qed.

Lemma promise_all_looks_up (subjects : list (Subject Lecture Attrs))
    (subj : Subject Lecture Attrs) (w : World) :
  In subj subjects ->
  In (StorageGet (subject_key subj)) (calls (snd (promise_all task subjects w))).
Proof.
  assert (Hkeep : forall x, preserves
            (fun w' : World => In (StorageGet (subject_key subj)) (calls w'))
            (task x)).
  { intros x. apply diffingTask_preserves.
    - intros c w' HP. simpl. apply in_or_app. by left.
    - intros v w' HP. done. }
  revert w. induction subjects as [|x subjects IH]; intros w Hin; [done|].
  simpl. destruct Hin as [->|Hin].
  - pose proof (diffingTask_looks_up subj w) as Hhere.
    pose proof (preserves_promise_all _ task subjects Hkeep (snd (task subj w)) Hhere).
    by destruct (task subj w) as [[[]|e] w'].
  - specialize (IH (snd (task x w)) Hin).
    by destruct (task x w) as [[[]|e] w'].
Qed.

(** X13.  Once the Subjects are collected, every one of them is looked up in the
    store, whatever fails for the others; and when the error notification
    never fails, the run completes. *)
Theorem handle_looks_up_every_subject (slice_start slice_end : nat) (w : World)
    (subj : Subject Lecture Attrs) :
  throws env CollectCookies = None ->
  throws env FetchSubjectsContent = None ->
  throws env (CollectSubjects (subjectsContent env) slice_start slice_end) = None ->
  In subj (collected env (subjectsContent env) slice_start slice_end) ->
  In (StorageGet (subject_key subj))
     (calls (snd (handle compareLecture compareMeeting env slice_start slice_end w)))
  /\ ((forall message, throws env (WebhookError message) = None) ->
      fst (handle compareLecture compareMeeting env slice_start slice_end w)
      = Returned tt).
Proof.
  intros H1 H2 H3 Hin.
  unfold handle, bind, collectCookies, logger_info, fetchSubjectsContent,
    collectSubjects, record, ret.
  rewrite (call_run _ _ _ H1). simpl.
  rewrite (call_run _ _ _ H2). simpl.
  rewrite (call_run _ _ _ H3). simpl.
  unfold try_catch.
  match goal with |- context [promise_all _ _ ?w3] =>
    pose proof (promise_all_looks_up _ subj w3 Hin) as Hlook; set (w' := w3) in * end.
  destruct (promise_all task _ w') as [[[]|[m|]] w4]; simpl in *.
  - done.
  - split.
    + unfold webhook_error, call, bind, record. simpl.
      destruct (throws env (WebhookError m)); simpl;
        rewrite ?in_app_iff; simpl; tauto.
    + intros Herr. unfold webhook_error. by rewrite (call_run _ _ _ (Herr m)).
  - done.
Qed.

End WorkerMore.

(** ** Runs of the Worker on the concrete portal *)

(** A later run, nothing failing: lookup, notification, write. *)
Lemma changed_subject_task :
  diffingTask cmpL cmpM
    (portal_env no_faults [cs101 [meeting1]] [cs101 [meeting1_updated]])
    (cs101 [meeting1_updated]) stored_cs101
  = (Returned tt,
     {| kv := <[ "subject_CS101" := json_subject (cs101 [meeting1_updated]) ]>
                (kv stored_cs101);
        calls := [ StorageGet "subject_CS101";
                   WebhookNotify (cs101 [meeting1_updated]);
                   StoragePut "subject_CS101"
                     (json_subject (cs101 [meeting1_updated])) ] |}).
Proof.
  apply (diffingTask_success cmpL cmpM
           (portal_env no_faults [cs101 [meeting1]] [cs101 [meeting1_updated]])
           (cs101 [meeting1_updated]) (cs101 [meeting1]) stored_cs101
           (json_subject (cs101 [meeting1]))).
  - reflexivity.
  - by vm_compute.
  - by vm_compute.
  - apply Forall_cons. split; [reflexivity|]. by apply Forall_nil.
  - reflexivity.
Defined.

(** The same run with the store refusing the write. *)
Lemma refused_write_task :
  diffingTask cmpL cmpM
    (portal_env put_fails [cs101 [meeting1]] [cs101 [meeting1_updated]])
    (cs101 [meeting1_updated]) stored_cs101
  = (Returned tt,
     {| kv := kv stored_cs101;
        calls := [ StorageGet "subject_CS101";
                   WebhookNotify (cs101 [meeting1_updated]);
                   StoragePut "subject_CS101"
                     (json_subject (cs101 [meeting1_updated]));
                   LoggerError "quota";
                   WebhookError "Failed to save new data for: CS101. Reason: quota" ] |}).
Proof.
  apply (diffingTask_put_failure cmpL cmpM
           (portal_env put_fails [cs101 [meeting1]] [cs101 [meeting1_updated]])
           (cs101 [meeting1_updated]) (cs101 [meeting1]) stored_cs101
           (json_subject (cs101 [meeting1])) "quota").
  - reflexivity.
  - by vm_compute.
  - by vm_compute.
  - apply Forall_cons. split; [reflexivity|]. by apply Forall_nil.
  - reflexivity.
  - reflexivity.
Defined.

(** A snapshot that is not JSON. *)
Lemma corrupt_snapshot_task :
  diffingTask cmpL cmpM (portal_env no_faults [] [cs101 [meeting1]])
    (cs101 [meeting1]) corrupt_store
  = (Threw (ErrorObj "Unexpected token"),
     {| kv := kv corrupt_store; calls := [StorageGet "subject_CS101"] |}).
Proof.
  apply (diffingTask_parse_failure cmpL cmpM
           (portal_env no_faults [] [cs101 [meeting1]])
           (cs101 [meeting1]) corrupt_store "<html>" (ErrorObj "Unexpected token")).
  - reflexivity.
  - by vm_compute.
  - by vm_compute.
Defined.

(** The webhook is down when a change is to be notified. *)
Lemma failed_notification_task :
  diffingTask cmpL cmpM
    (portal_env notify_fails [cs101 [meeting1]] [cs101 [meeting1_updated]])
    (cs101 [meeting1_updated]) stored_cs101
  = (Threw (ErrorObj "webhook down"),
     {| kv := kv stored_cs101;
        calls := [ StorageGet "subject_CS101";
                   WebhookNotify (cs101 [meeting1_updated]) ] |}).
Proof.
  apply (diffingTask_notify_failure cmpL cmpM
           (portal_env notify_fails [cs101 [meeting1]] [cs101 [meeting1_updated]])
           (cs101 [meeting1_updated]) (cs101 [meeting1]) stored_cs101
           (json_subject (cs101 [meeting1]))
           (WebhookNotify (cs101 [meeting1_updated])) (ErrorObj "webhook down")).
  - reflexivity.
  - by vm_compute.
  - by vm_compute.
  - reflexivity.
  - reflexivity.
Defined.

(** A run that collects [CS101] only leaves the snapshot of [CS102]. *)
Lemma other_snapshot_untouched :
  kv (snd (handle cmpL cmpM
             (portal_env no_faults [cs101 [meeting1]] [cs101 [meeting1_updated]])
             0 10 two_snapshots)) !! "subject_CS102"
  = kv two_snapshots !! "subject_CS102".
Proof.
  apply (handle_other_keys_untouched cmpL cmpM
           (portal_env no_faults [cs101 [meeting1]] [cs101 [meeting1_updated]])
           0 10 two_snapshots "subject_CS102").
  intros subj [<-|[]]. by vm_compute.
Defined.

(** The session cannot be established. *)
Lemma offline_run :
  handle cmpL cmpM (portal_env cookies_fail [] [cs101 [meeting1]]) 0 10 empty_world
  = (Threw (ErrorObj "offline"), {| kv := ∅; calls := [CollectCookies] |}).
Proof.
  exact (handle_cookies_failure cmpL cmpM
           (portal_env cookies_fail [] [cs101 [meeting1]]) 0 10 empty_world
           (ErrorObj "offline") eq_refl).
Defined.

(** Every lookup fails: [CS102], second in the batch, is still looked up. *)
Lemma second_subject_looked_up :
  In (StorageGet "subject_CS102")
     (calls (snd (handle cmpL cmpM
                    (portal_env lookup_fails [] [cs101 [meeting1]; cs102 [meeting2]])
                    0 10 empty_world)))
  /\ ((forall message,
         throws (portal_env lookup_fails [] [cs101 [meeting1]; cs102 [meeting2]])
                (WebhookError message) = None) ->
      fst (handle cmpL cmpM
             (portal_env lookup_fails [] [cs101 [meeting1]; cs102 [meeting2]])
             0 10 empty_world) = Returned tt).
Proof.
  apply (handle_looks_up_every_subject cmpL cmpM
           (portal_env lookup_fails [] [cs101 [meeting1]; cs102 [meeting2]])
           0 10 empty_world (cs102 [meeting2])).
  - reflexivity.
  - reflexivity.
  - reflexivity.
  - right. by left.
Defined.

(** * Further properties of the Scraper *)

(** ** The suffix of a URL *)

Lemma substring_whole (s : string) (n : nat) :
  String.length s <= n -> String.substring 0 n s = s.
Proof.
  revert n. induction s as [|c s IH]; intros [|n] Hn; simpl in *; try done; try lia.
  rewrite IH; [done|lia].
Qed.

Lemma string_length_app (a b : string) :
  String.length (a +:+ b) = String.length a + String.length b.
Proof. induction a as [|c a IH]; simpl; [done|]. by rewrite IH. Qed.

Lemma substring_skip (pre suf : string) (n : nat) :
  String.substring (String.length pre) n (pre +:+ suf) = String.substring 0 n suf.
Proof. induction pre as [|c pre IH]; simpl; [done|]. exact IH. Qed.

(** X14.  The key of a snapshot is the timestamp, an underscore and the last
    four characters of the URL, whatever comes before them; a URL of at most
    four characters is taken whole.  So the key depends on the URL through
    its last four characters only. *)
Theorem snapshot_key_last_four (timestamp : N) :
  (forall pre suffix, String.length suffix = 4 ->
     snapshot_key timestamp (pre +:+ suffix)
     = pretty timestamp +:+ "_" +:+ suffix)
  /\ (forall url, String.length url <= 4 ->
        snapshot_key timestamp url = pretty timestamp +:+ "_" +:+ url).
Proof.
  unfold snapshot_key, slice_last. simpl. split.
  - intros pre suffix Hlen. do 2 f_equal.
    rewrite string_length_app, Hlen.
    replace (String.length pre + 4 - 4) with (String.length pre) by lia.
    rewrite substring_skip. apply substring_whole. lia.
  - intros url Hlen. do 2 f_equal.
    replace (String.length url - 4) with 0 by lia.
    by apply substring_whole.
Qed.

Example snapshot_keys_collide :
  snapshot_key 1700000000000 "/a/view/1234" = "1700000000000_1234"
  /\ snapshot_key 1700000000000 "/b/view/1234" = "1700000000000_1234"
  /\ snapshot_key 1700000000000 "/x" = "1700000000000_/x".
Proof. by vm_compute. Qed.

Section ScraperMore.
Context {Lecture : Type}.
Variable env : ScraperEnv Lecture.
Variable this : Scraper.

(** X15.  Calling [init] again is a no-op: two calls in a row do what one does,
    whether the browser gives a page or throws. *)
Theorem init_idempotent (w : ScraperWorld) :
  (do! init env in init env) w = init env w.
Proof.
  unfold init, bind, get_this_page.
  destruct (this_page w) as [p|] eqn:Hpage; simpl.
  - by rewrite Hpage.
  - unfold browser_getFirstPage, scall, bind, srecord, alloc_page,
      set_this_page, throw. simpl.
    by destruct (scraper_throws env BrowserGetFirstPage).
Qed.

(** X16.  After [cleanUp] the page handle is gone: [login], [goToLMS] and
    [savePageSnapshots] each throw the not-initialized error without
    calling anything, until [init] runs again. *)
Theorem cleanUp_then_not_initialized (w : ScraperWorld) :
  scraper_throws env BrowserClose = None ->
  fst (cleanUp env w) = Returned tt
  /\ this_page (snd (cleanUp env w)) = None
  /\ login env this (snd (cleanUp env w))
     = (Threw (NotInitializedError "this._page"), snd (cleanUp env w))
  /\ goToLMS env this (snd (cleanUp env w))
     = (Threw (NotInitializedError "this._page"), snd (cleanUp env w))
  /\ savePageSnapshots env this (snd (cleanUp env w))
     = (Threw (NotInitializedError "this._page"), snd (cleanUp env w)).
Proof.
  intros Hclose.
  unfold cleanUp, browser_close, scall, bind, srecord, set_this_page, ret. simpl.
  rewrite Hclose. simpl. done.
Qed.

(** ** A failed run *)

Local Abbreviation browser_open :=
  (fun w : ScraperWorld => ~ In BrowserClose (scraper_calls w)).

Lemma throws_keep_bind {W E A B : Type} (P : W -> Prop)
    (c : M W E A) (k : A -> M W E B) :
  preserves P c -> (forall a, throws_keep P (k a)) -> throws_keep P (bind c k).
Proof.
  intros Hc Hk w HP. unfold bind. specialize (Hc w HP).
  destruct (c w) as [[a|e] w']; simpl in *; [by apply Hk|done].
Qed.

Lemma srecord_keeps_open (c : ScraperCall) :
  c <> BrowserClose -> preserves browser_open (srecord c).
Proof.
  intros Hc w HP. simpl. rewrite in_app_iff. simpl. intros [?|[?|[]]]; congruence.
Qed.

Lemma scall_keeps_open {A : Type} (c : ScraperCall)
    (k : M ScraperWorld ScraperThrown A) :
  c <> BrowserClose -> preserves browser_open k ->
  preserves browser_open (scall env c k).
Proof.
  intros Hc Hk. unfold scall. apply preserves_bind; [by apply srecord_keeps_open|].
  intros _. destruct (scraper_throws env c); [apply preserves_throw|done].
Qed.

Ltac keeps_open :=
  repeat first
    [ apply preserves_ret
    | apply preserves_throw
    | apply scall_keeps_open; [discriminate|]
    | apply srecord_keeps_open; discriminate
    | apply preserves_bind; [|intros ?]
    | by intros ? ? ].

Lemma init_keeps_open : preserves browser_open (init env).
Proof.
  unfold init, get_this_page, browser_getFirstPage, alloc_page, set_this_page.
  apply preserves_bind; [by intros ? ?|]. intros [p|]; keeps_open.
Qed.

Lemma login_keeps_open : preserves browser_open (login env this).
Proof.
  unfold login, get_this_page, page_visit, page_insert, page_clickButton.
  apply preserves_bind; [by intros ? ?|]. intros [p|]; keeps_open.
Qed.

Lemma goToLMS_keeps_open : preserves browser_open (goToLMS env this).
Proof.
  unfold goToLMS, get_this_page, page_waitForNetworkIdle, page_clickButton,
    page_close, browser_newPage, alloc_page, set_this_page, page_visit.
  apply preserves_bind; [by intros ? ?|]. intros [p|]; keeps_open.
Qed.

Lemma savePageSnapshots_keeps_open :
  preserves browser_open (savePageSnapshots env this).
Proof.
  unfold savePageSnapshots, get_this_page, page_getAttributesFromElements.
  apply preserves_bind; [by intros ? ?|]. intros [p|]; [|keeps_open].
  apply preserves_bind; [keeps_open|]. intros urls.
  apply preserves_promise_all. intros url.
  unfold snapshotTask, browser_newPage, alloc_page, page_visit, page_getContent,
    collector_collect, audit_put, page_close.
  keeps_open.
Qed.

(** X17.  A run that fails never reaches [cleanUp]: whatever step threw, the
    browser is not closed. *)
Theorem scrape_failure_leaves_browser_open (w : ScraperWorld) (e : ScraperThrown) :
  scraper_throws env BrowserClose = None ->
  ~ In BrowserClose (scraper_calls w) ->
  fst (scrape env this w) = Threw e ->
  ~ In BrowserClose (scraper_calls (snd (scrape env this w))).
Proof.
  intros Hclose Hopen Hthrew.
  assert (Hkeep : throws_keep browser_open (scrape env this)).
  { unfold scrape, scraper_logger_info.
    apply throws_keep_bind; [by apply srecord_keeps_open|]. intros _.
    apply throws_keep_bind; [apply init_keeps_open|]. intros _.
    apply throws_keep_bind; [by apply srecord_keeps_open|]. intros _.
    apply throws_keep_bind; [apply login_keeps_open|]. intros _.
    apply throws_keep_bind; [by apply srecord_keeps_open|]. intros _.
    apply throws_keep_bind; [apply goToLMS_keeps_open|]. intros _.
    apply throws_keep_bind; [by apply srecord_keeps_open|]. intros _.
    apply throws_keep_bind; [apply savePageSnapshots_keeps_open|]. intros _.
    apply throws_keep_bind; [by apply srecord_keeps_open|]. intros _.
    intros w' _. unfold cleanUp, browser_close, scall, bind, srecord. simpl.
    by rewrite Hclose. }
  specialize (Hkeep w Hopen).
  destruct (scrape env this w) as [[[]|e'] w']; simpl in *; [discriminate|done].
Qed.

End ScraperMore.

(** ** A run in which nothing fails *)

Section ScraperRun.
Context {Lecture : Type}.
Variable env : ScraperEnv Lecture.
Variable this : Scraper.
Hypothesis no_fault : forall c, scraper_throws env c = None.

(** A call recorded and gone on, in a run in which nothing fails. *)
Lemma scall_ok {A : Type} (c : ScraperCall)
    (k : M ScraperWorld ScraperThrown A) (w : ScraperWorld) :
  scall env c k w
  = k {| this_page := this_page w; fresh_page := fresh_page w;
         page_url := page_url w; audit := audit w;
         scraper_calls := scraper_calls w ++ [c] |}.
Proof using no_fault. unfold scall, bind, srecord. simpl. by rewrite no_fault. Qed.

Lemma init_ok (w : ScraperWorld) :
  this_page w = None ->
  init env w
  = (Returned tt,
     {| this_page := Some (fresh_page w); fresh_page := S (fresh_page w);
        page_url := page_url w; audit := audit w;
        scraper_calls := scraper_calls w ++ [BrowserGetFirstPage] |}).
Proof using no_fault.
  intros Hpage. unfold init, bind, get_this_page, browser_getFirstPage.
  rewrite Hpage. by rewrite scall_ok.
Qed.

Lemma login_ok (w : ScraperWorld) (p : nat) :
  this_page w = Some p ->
  login env this w
  = (Returned tt,
     {| this_page := Some p; fresh_page := fresh_page w;
        page_url := <[p := _siakadUrl this]> (page_url w); audit := audit w;
        scraper_calls := scraper_calls w ++
          [ PageVisit p (_siakadUrl this);
            PageInsert p USERNAME_INPUT (_nim this);
            PageInsert p PASSWORD_INPUT (_password this);
            PageClickButton p LOGIN_BUTTON false ] |}).
Proof using no_fault.
  intros Hpage.
  unfold login, bind, get_this_page, page_visit, page_insert, page_clickButton.
  rewrite Hpage. repeat (rewrite scall_ok; simpl).
  unfold ret. by rewrite ?Hpage, <- !app_assoc.
Qed.

Lemma goToLMS_ok (w : ScraperWorld) (p : nat) :
  this_page w = Some p ->
  goToLMS env this w
  = (Returned tt,
     {| this_page := Some (fresh_page w); fresh_page := S (fresh_page w);
        page_url := <[fresh_page w := _lmsUrl this]> (page_url w);
        audit := audit w;
        scraper_calls := scraper_calls w ++
          [ PageWaitForNetworkIdle p;
            PageClickButton p LMS_BUTTON false;
            PageClickButton p GOTO_LMS_BUTTON true;
            PageClose p;
            BrowserNewPage;
            PageVisit (fresh_page w) (_lmsUrl this) ] |}).
Proof using no_fault.
  intros Hpage.
  unfold goToLMS, bind, get_this_page, page_waitForNetworkIdle,
    page_clickButton, page_close, browser_newPage, page_visit.
  rewrite Hpage. repeat (rewrite scall_ok; simpl).
  unfold ret. by rewrite ?Hpage, <- !app_assoc.
Qed.

End ScraperRun.

(** ** Runs of the Scraper on the concrete LMS *)

(** After a completed session the steps need [init] again. *)
Lemma session_closed :
  fst (cleanUp lms_env lms_landing) = Returned tt
  /\ this_page (snd (cleanUp lms_env lms_landing)) = None
  /\ login lms_env lms_scraper (snd (cleanUp lms_env lms_landing))
     = (Threw (NotInitializedError "this._page"), snd (cleanUp lms_env lms_landing))
  /\ goToLMS lms_env lms_scraper (snd (cleanUp lms_env lms_landing))
     = (Threw (NotInitializedError "this._page"), snd (cleanUp lms_env lms_landing))
  /\ savePageSnapshots lms_env lms_scraper (snd (cleanUp lms_env lms_landing))
     = (Threw (NotInitializedError "this._page"), snd (cleanUp lms_env lms_landing)).
Proof.
  exact (cleanUp_then_not_initialized lms_env lms_scraper lms_landing eq_refl).
Defined.

(** The login page cannot be reached: the run fails at the first visit and
    the browser stays open. *)
Lemma unreachable_login_leaves_browser_open :
  scrape lms_env_unreachable lms_scraper uninitialized
  = (Threw (Collaborator (ErrorObj "timeout")),
     {| this_page := Some 0; fresh_page := 1; page_url := ∅; audit := ∅;
        scraper_calls := [ ScraperLoggerInfo "Initialising...";
                           BrowserGetFirstPage;
                           ScraperLoggerInfo "Logging in...";
                           PageVisit 0 "https://siakad.example" ] |})
  /\ ~ In BrowserClose
       (scraper_calls (snd (scrape lms_env_unreachable lms_scraper uninitialized))).
Proof.
  split; [by vm_compute|].
  apply (scrape_failure_leaves_browser_open lms_env_unreachable lms_scraper
           uninitialized (Collaborator (ErrorObj "timeout"))).
  - reflexivity.
  - intros [].
  - by vm_compute.
Defined.

(** * The page tasks under every schedule *)

(** ** Lists with one entry replaced *)

Lemma flat_map_insert_perm {A B : Type} (f : A -> list B) (l : list A)
    (i : nat) (x y : A) :
  l !! i = Some x ->
  Permutation (f x ++ flat_map f (<[i := y]> l)) (f y ++ flat_map f l).
Proof.
  intros Hx.
  rewrite insert_take_drop by (by eapply lookup_lt_Some).
  rewrite <- (take_drop_middle l i x Hx) at 3.
  rewrite !flat_map_app. simpl.
  etransitivity; [apply Permutation_app_swap_app|].
  etransitivity; [|apply Permutation_app_swap_app].
  apply Permutation_app_head. apply Permutation_app_swap_app.
Qed.

Lemma flat_map_insert_same {A B : Type} (f : A -> list B) (l : list A)
    (i : nat) (x y : A) :
  l !! i = Some x -> f y = f x ->
  flat_map f (<[i := y]> l) = flat_map f l.
Proof.
  intros Hx Hf.
  rewrite insert_take_drop by (by eapply lookup_lt_Some).
  rewrite <- (take_drop_middle l i x Hx) at 3.
  rewrite !flat_map_app. simpl. by rewrite Hf.
Qed.

Lemma lookup_insert_cases {A : Type} (l : list A) (i j : nat) (x y : A) :
  <[i := y]> l !! j = Some x ->
  (j = i /\ x = y) \/ (j <> i /\ l !! j = Some x).
Proof.
  intros H. destruct (decide (j = i)) as [->|Hne].
  - left. split; [done|].
    apply list_lookup_insert_Some in H as [(_ & -> & _)|[Hne _]]; [done|congruence].
  - right. split; [done|]. by rewrite list_lookup_insert_ne in H.
Qed.

(** ** Canonical forms of the page tasks *)

Section PageTasks.
Context {Lecture : Type}.
Variable env : ScraperEnv Lecture.
Variable this : Scraper.
Variable timestamp : N.

(** The task run with no other task in between is the callback as
    modelled without its [await]s, whatever fails. *)
Lemma snapshotTaskA_alone (url : string) (w : ScraperWorld) :
  run_alone 5 (snapshotTaskA env this timestamp url w).1
                (snapshotTaskA env this timestamp url w).2
  = Some (snapshotTask env this timestamp url w).
Proof.
  unfold snapshotTaskA, snapshotTask, await_call, sync_call, pending, resolve,
    browser_newPage, page_visit, page_getContent, collector_collect, audit_put,
    page_close, scall, bind, visited, shown, written, alloc_page, srecord,
    throw, ret.
  simpl.
  repeat match goal with
         | |- context [scraper_throws env ?c] =>
             destruct (scraper_throws env c); simpl; try reflexivity
         end.
Qed.

Lemma snapshotTaskA_start (url : string) (w : ScraperWorld) :
  snapshotTaskA env this timestamp url w
  = (task_at env this timestamp url AwaitNewPage, snd (srecord BrowserNewPage w)).
Proof. reflexivity. Qed.

Lemma first_rejected_tasks (st : list (string * Stage)) :
  first_rejected (tasks_of env this timestamp st) = None.
Proof.
  induction st as [|[url g] st IH]; simpl; [done|]. by destruct g.
Qed.

Lemma resolved_tasks (st : list (string * Stage)) :
  forallb is_resolved (tasks_of env this timestamp st)
  = forallb (fun task => finished task.2) st.
Proof.
  induction st as [|[url g] st IH]; simpl; [done|]. rewrite IH. by destruct g.
Qed.

Lemma settled_tasks (st : list (string * Stage)) :
  settled (tasks_of env this timestamp st)
  = if forallb (fun task => finished task.2) st then Some (Returned tt) else None.
Proof. unfold settled. by rewrite first_rejected_tasks, resolved_tasks. Qed.

Hypothesis no_fault : forall c, scraper_throws env c = None.

Lemma resume_task_at (url : string) (g : Stage) (w : ScraperWorld) :
  resume_of (task_at env this timestamp url g) w
  = (task_at env this timestamp url (advance env this timestamp url g w).1,
     (advance env this timestamp url g w).2).
Proof using no_fault.
  destruct g; simpl; rewrite ?no_fault; try reflexivity.
  unfold sync_call. by rewrite no_fault.
Qed.

Lemma turn_tasks (i : nat) (st : list (string * Stage)) (w : ScraperWorld) :
  turn i (tasks_of env this timestamp st, w)
  = (tasks_of env this timestamp (advance_at env this timestamp i st w).1,
     (advance_at env this timestamp i st w).2).
Proof using no_fault.
  unfold turn, advance_at, tasks_of. simpl.
  rewrite list_lookup_fmap.
  destruct (st !! i) as [[url g]|]; simpl; [|done].
  rewrite resume_task_at. by rewrite list_fmap_insert.
Qed.

Lemma start_all_tasks (urls : list string) (w : ScraperWorld) :
  start_all (map (snapshotTaskA env this timestamp) urls) w
  = (tasks_of env this timestamp (map (fun url => (url, AwaitNewPage)) urls),
     {| this_page := this_page w; fresh_page := fresh_page w;
        page_url := page_url w; audit := audit w;
        scraper_calls := scraper_calls w ++ replicate (length urls) BrowserNewPage |}).
Proof.
  revert w. induction urls as [|url urls IH]; intros w; simpl.
  - rewrite app_nil_r. by destruct w.
  - rewrite IH. simpl. by rewrite <- app_assoc.
Qed.

End PageTasks.

(** ** What every schedule keeps *)

Lemma fst_insert_same {A B : Type} (l : list (A * B)) (i : nat) (a : A) (b b' : B) :
  l !! i = Some (a, b) -> (<[i := (a, b')]> l).*1 = l.*1.
Proof.
  intros Hi. rewrite list_fmap_insert. simpl. apply list_insert_id.
  by rewrite list_lookup_fmap, Hi.
Qed.

Lemma in_fst_lookup {A B : Type} (l : list (A * B)) (i : nat) (a : A) (b : B) :
  l !! i = Some (a, b) -> In a (l.*1).
Proof.
  intros Hi. apply list_elem_of_In, list_elem_of_lookup. exists i.
  by rewrite list_lookup_fmap, Hi.
Qed.

Lemma flat_map_insert_length {A B : Type} (f : A -> list B) (l : list A)
    (i : nat) (x y : A) :
  l !! i = Some x ->
  length (f x) + length (flat_map f (<[i := y]> l))
  = length (f y) + length (flat_map f l).
Proof.
  intros Hx. rewrite <- !length_app.
  apply Permutation_length. by apply flat_map_insert_perm.
Qed.

Section PageTasksInvariant.
Context {Lecture : Type}.
Variable env : ScraperEnv Lecture.
Variable this : Scraper.
Variable timestamp : N.
Variable urls : list string.
Variable w0 : ScraperWorld.

Local Abbreviation Inv := (page_tasks_inv env this timestamp urls w0).
Local Abbreviation step := (advance env this timestamp).

Lemma audit_puts_calls (w : ScraperWorld) (cs : list ScraperCall) p f u a :
  audit_puts {| this_page := p; fresh_page := f; page_url := u; audit := a;
                scraper_calls := scraper_calls w ++ cs |}
  = audit_puts w
    ++ omap (fun c => match c with AuditPut k v => Some (k, v) | _ => None end) cs.
Proof. unfold audit_puts. simpl. apply omap_app. Qed.

Lemma inv_started :
  Inv (map (fun url => (url, AwaitNewPage)) urls)
    {| this_page := this_page w0; fresh_page := fresh_page w0;
       page_url := page_url w0; audit := audit w0;
       scraper_calls := scraper_calls w0
                        ++ replicate (length urls) BrowserNewPage |}.
Proof.
  assert (Hlook : forall i url g,
            map (fun url => (url, AwaitNewPage)) urls !! i = Some (url, g) ->
            g = AwaitNewPage).
  { intros i url g Hi. change (map ?f urls) with (f <$> urls) in Hi.
    rewrite list_lookup_fmap in Hi. destruct (urls !! i); simpl in Hi; congruence. }
  constructor; simpl.
  - change (map ?f urls) with (f <$> urls). rewrite <- list_fmap_compose.
    apply list_fmap_id.
  - done.
  - rewrite flat_map_all_nil; [simpl; lia|]. intros [url g] Hin.
    apply in_map_iff in Hin as (u & [= <- <-] & _). done.
  - intros i url g p Hi Hheld. by rewrite (Hlook _ _ _ Hi) in Hheld.
  - intros i j ui gi uj gj p _ Hi _ Hheld. by rewrite (Hlook _ _ _ Hi) in Hheld.
  - intros i url p Hi. by apply Hlook in Hi.
  - intros i url p v Hi. by apply Hlook in Hi.
  - rewrite audit_puts_calls.
    rewrite (flat_map_all_nil (put_made timestamp (stored_for env this))).
    + replace (omap _ (replicate (length urls) BrowserNewPage)) with
        (@nil (string * string)); [done|].
      induction (length urls) as [|n IH]; simpl; [done|exact IH].
    + intros [url g] Hin. apply in_map_iff in Hin as (u & [= <- <-] & _). done.
  - intros i url g Hi Hdone. by rewrite (Hlook _ _ _ Hi) in Hdone.
Qed.

Ltac other_task H :=
  apply lookup_insert_cases in H as [[-> [= -> ->]]|[? H]].

Lemma inv_advance (st : list (string * Stage)) (w : ScraperWorld)
    (i : nat) (url : string) (g : Stage) :
  Inv st w ->
  st !! i = Some (url, g) ->
  Inv (<[i := (url, (step url g w).1)]> st) (step url g w).2.
Proof.
  intros [Hurls Hpage Hfresh Hhf Hhd Hcont Hval Hputs Hstore] Hi.
  assert (Hin : In url urls) by (rewrite <- Hurls; by eapply in_fst_lookup).
  pose proof (flat_map_insert_length
                (fun task : string * Stage => replicate (pages_taken task.2) tt)
                st i (url, g) (url, (step url g w).1) Hi) as Hlen.
  destruct g as [|p|p|p v|p|]; simpl in *.
  - (* the page is given *)
    constructor; simpl.
    + by rewrite (fst_insert_same _ _ _ _ _ Hi).
    + done.
    + lia.
    + intros j u g' q Hj Hheld. other_task Hj.
      * simpl in Hheld. injection Hheld as <-. lia.
      * specialize (Hhf _ _ _ _ Hj Hheld). lia.
    + intros j k uj gj uk gk q Hne Hj Hk Hhj Hhk.
      other_task Hj; other_task Hk; try done.
      * simpl in Hhj. injection Hhj as <-.
        specialize (Hhf _ _ _ _ Hk Hhk). lia.
      * simpl in Hhk. injection Hhk as <-.
        specialize (Hhf _ _ _ _ Hj Hhj). lia.
      * by eapply (Hhd j k).
    + intros j u q Hj. other_task Hj. by eapply Hcont.
    + intros j u q v Hj. other_task Hj. by eapply Hval.
    + rewrite audit_puts_calls. simpl. rewrite app_nil_r.
      by rewrite (flat_map_insert_same _ _ _ _ _ Hi).
    + intros j u g' Hj Hdone. other_task Hj; [done|]. by eapply Hstore.
  - (* the page is visited *)
    constructor; simpl.
    + by rewrite (fst_insert_same _ _ _ _ _ Hi).
    + done.
    + lia.
    + intros j u g' q Hj Hheld. other_task Hj.
      * simpl in Hheld. injection Hheld as <-. by eapply (Hhf i).
      * by eapply Hhf.
    + intros j k uj gj uk gk q Hne Hj Hk Hhj Hhk.
      other_task Hj; other_task Hk; try done.
      * simpl in Hhj. injection Hhj as <-. by eapply (Hhd i k).
      * simpl in Hhk. injection Hhk as <-. by eapply (Hhd j i).
      * by eapply (Hhd j k).
    + intros j u q Hj. other_task Hj.
      * apply lookup_insert_eq.
      * rewrite lookup_insert_ne; [by eapply Hcont|].
        intros <-. by eapply (Hhd i j).
    + intros j u q v Hj. other_task Hj. by eapply Hval.
    + rewrite audit_puts_calls. simpl. rewrite app_nil_r.
      by rewrite (flat_map_insert_same _ _ _ _ _ Hi).
    + intros j u g' Hj Hdone. other_task Hj; [done|]. by eapply Hstore.
  - (* the content is read and collected, the write is made *)
    rewrite (Hcont _ _ _ Hi) in Hlen |- *. simpl in Hlen |- *.
    fold (stored_for env this url) in Hlen |- *.
    constructor; simpl.
    + by rewrite (fst_insert_same _ _ _ _ _ Hi).
    + done.
    + lia.
    + intros j u g' q Hj Hheld. other_task Hj; [done|]. by eapply Hhf.
    + intros j k uj gj uk gk q Hne Hj Hk Hhj Hhk.
      other_task Hj; other_task Hk; try done. by eapply (Hhd j k).
    + intros j u q Hj. other_task Hj. by eapply Hcont.
    + intros j u q v Hj. other_task Hj; [done|]. by eapply Hval.
    + rewrite <- !app_assoc, audit_puts_calls. simpl.
      pose proof (flat_map_insert_perm (put_made timestamp (stored_for env this))
                    st i (url, AwaitContent p)
                    (url, AwaitPut p (stored_for env this url)) Hi) as Hperm.
      change (put_made timestamp (stored_for env this) (url, AwaitContent p))
        with (@nil (string * string)) in Hperm.
      change (put_made timestamp (stored_for env this)
                (url, AwaitPut p (stored_for env this url)))
        with [(snapshot_key timestamp url, stored_for env this url)] in Hperm.
      simpl in Hperm. rewrite Hperm, Hputs.
      rewrite <- app_assoc. apply Permutation_app_head.
      symmetry. apply Permutation_cons_append.
    + intros j u g' Hj Hdone. other_task Hj; [done|]. by eapply Hstore.
  - (* the write completes *)
    pose proof (Hval _ _ _ _ Hi) as ->.
    constructor; simpl.
    + by rewrite (fst_insert_same _ _ _ _ _ Hi).
    + done.
    + lia.
    + intros j u g' q Hj Hheld. other_task Hj; [done|]. by eapply Hhf.
    + intros j k uj gj uk gk q Hne Hj Hk Hhj Hhk.
      other_task Hj; other_task Hk; try done. by eapply (Hhd j k).
    + intros j u q Hj. other_task Hj. by eapply Hcont.
    + intros j u q v Hj. other_task Hj. by eapply Hval.
    + rewrite audit_puts_calls. simpl. rewrite app_nil_r.
      by rewrite (flat_map_insert_same _ _ _ _ _ Hi).
    + intros j u g' Hj Hdone.
      assert (Hhere : forall u', snapshot_key timestamp u' = snapshot_key timestamp url ->
                exists url', In url' urls
                  /\ snapshot_key timestamp url' = snapshot_key timestamp u'
                  /\ <[snapshot_key timestamp url := stored_for env this url]> (audit w)
                       !! snapshot_key timestamp u'
                     = Some (stored_for env this url')).
      { intros u' Hkey. exists url. split; [done|]. split; [done|].
        rewrite Hkey. apply lookup_insert_eq. }
      other_task Hj; [by apply Hhere|].
      destruct (decide (snapshot_key timestamp u = snapshot_key timestamp url))
        as [Hkey|Hkey]; [by apply Hhere|].
      rewrite lookup_insert_ne by done. by eapply Hstore.
  - (* the page is closed *)
    destruct w as [tp fp pu au cs]. simpl in *.
    constructor; simpl.
    + by rewrite (fst_insert_same _ _ _ _ _ Hi).
    + done.
    + lia.
    + intros j u g' q Hj Hheld. other_task Hj; [done|]. by eapply Hhf.
    + intros j k uj gj uk gk q Hne Hj Hk Hhj Hhk.
      other_task Hj; other_task Hk; try done. by eapply (Hhd j k).
    + intros j u q Hj. other_task Hj. by eapply Hcont.
    + intros j u q v Hj. other_task Hj. by eapply Hval.
    + by rewrite (flat_map_insert_same _ _ _ _ _ Hi).
    + intros j u g' Hj Hdone. other_task Hj; [by eapply (Hstore i)|]. by eapply Hstore.
  - (* no turn left *)
    rewrite list_insert_id by done. by destruct w.
Qed.

End PageTasksInvariant.

(** ** Settling *)

Section PageTasksSettle.
Context {Lecture : Type}.
Variable env : ScraperEnv Lecture.
Variable this : Scraper.
Variable timestamp : N.
Hypothesis no_fault : forall c, scraper_throws env c = None.

Local Abbreviation tasks := (tasks_of env this timestamp).
Local Abbreviation all_finished :=
  (forallb (fun task : string * Stage => finished task.2)).

Lemma inv_advance_at (urls : list string) (w0 : ScraperWorld)
    (st : list (string * Stage)) (w : ScraperWorld) (i : nat) :
  page_tasks_inv env this timestamp urls w0 st w ->
  page_tasks_inv env this timestamp urls w0
    (advance_at env this timestamp i st w).1
    (advance_at env this timestamp i st w).2.
Proof.
  intros Hinv. unfold advance_at.
  destruct (st !! i) as [[url g]|] eqn:Hi; simpl; [|done].
  by apply inv_advance.
Qed.

(** Whatever the schedule, when [Promise.all] settles it has resolved, and
    every task has taken all its turns. *)
Lemma await_all_sound (urls : list string) (w0 : ScraperWorld)
    (schedule : list nat) (st : list (string * Stage)) (w : ScraperWorld)
    (r : Outcome ScraperThrown unit) (w' : ScraperWorld) :
  page_tasks_inv env this timestamp urls w0 st w ->
  await_all schedule (tasks st, w) = Some (r, w') ->
  r = Returned tt
  /\ exists st', page_tasks_inv env this timestamp urls w0 st' w'
       /\ all_finished st' = true.
Proof using no_fault.
  revert st w. induction schedule as [|i schedule IH]; intros st w Hinv; simpl;
    rewrite settled_tasks; destruct (all_finished st) eqn:Hfin;
    intros Hrun; try discriminate.
  - injection Hrun as <- <-. split; [done|]. by exists st.
  - injection Hrun as <- <-. split; [done|]. by exists st.
  - rewrite turn_tasks in Hrun by done.
    eapply IH; [|exact Hrun]. by apply inv_advance_at.
Qed.

Lemma turns_left_advance (url : string) (g : Stage) (w : ScraperWorld) :
  turns_left (advance env this timestamp url g w).1 = pred (turns_left g).
Proof. by destruct g. Qed.

Lemma no_turn_left_finished (st : list (string * Stage)) :
  (forall i task, st !! i = Some task -> turns_left task.2 = 0) ->
  all_finished st = true.
Proof.
  intros Hleft. apply forallb_forall. intros [url g] Hin.
  apply list_elem_of_In, list_elem_of_lookup in Hin as [i Hi].
  specialize (Hleft i _ Hi). by destruct g.
Qed.

(** A schedule that gives every task the five turns it needs settles. *)
Lemma await_all_live (schedule : list nat) (st : list (string * Stage))
    (w : ScraperWorld) :
  (forall i task, st !! i = Some task ->
     turns_left task.2 <= count_occ Nat.eq_dec schedule i) ->
  exists w', await_all schedule (tasks st, w) = Some (Returned tt, w').
Proof using no_fault.
  revert st w. induction schedule as [|i schedule IH]; intros st w Hturns; simpl;
    rewrite settled_tasks; destruct (all_finished st) eqn:Hfin; try by eexists.
  - rewrite no_turn_left_finished in Hfin; [done|].
    intros i task Hi. specialize (Hturns i task Hi). simpl in Hturns. lia.
  - rewrite turn_tasks by done. apply IH.
    intros j task Hj. unfold advance_at in Hj.
    destruct (st !! i) as [[url g]|] eqn:Hi; simpl in Hj.
    + apply lookup_insert_cases in Hj as [[-> ->]|[Hne Hj]]; simpl.
      * specialize (Hturns i _ Hi). simpl in Hturns.
        rewrite turns_left_advance.
        destruct (Nat.eq_dec i i); [lia|done].
      * specialize (Hturns j _ Hj). simpl in Hturns.
        destruct (Nat.eq_dec i j); [congruence|done].
    + specialize (Hturns j _ Hj). simpl in Hturns.
      destruct (Nat.eq_dec i j); [congruence|done].
Qed.

Lemma finished_puts (st : list (string * Stage)) :
  all_finished st = true ->
  flat_map (put_made timestamp (stored_for env this)) st
  = map (fun url => (snapshot_key timestamp url, stored_for env this url)) (st.*1).
Proof.
  induction st as [|[url g] st IH]; simpl; [done|].
  intros [Hg Hrest]%andb_prop. rewrite IH by done. by destruct g.
Qed.

Lemma finished_pages (st : list (string * Stage)) :
  all_finished st = true ->
  length (flat_map (fun task : string * Stage => replicate (pages_taken task.2) tt) st)
  = length (st.*1).
Proof.
  induction st as [|[url g] st IH]; simpl; [done|].
  intros [Hg Hrest]%andb_prop. rewrite length_app, IH by done. by destruct g.
Qed.

(** The page tasks of a listing, started in [w0] and run under any
    schedule until [Promise.all] settles. *)
Lemma page_tasks_settled (urls : list string) (w0 : ScraperWorld)
    (schedule : list nat) (r : Outcome ScraperThrown unit) (w' : ScraperWorld) :
  await_all schedule (start_all (map (snapshotTaskA env this timestamp) urls) w0)
  = Some (r, w') ->
  r = Returned tt
  /\ this_page w' = this_page w0
  /\ fresh_page w' = fresh_page w0 + length urls
  /\ Permutation (audit_puts w')
       (audit_puts w0
        ++ map (fun url => (snapshot_key timestamp url, stored_for env this url)) urls)
  /\ (forall url, In url urls ->
        exists url', In url' urls
          /\ snapshot_key timestamp url' = snapshot_key timestamp url
          /\ audit w' !! snapshot_key timestamp url = Some (stored_for env this url')).
Proof using no_fault.
  rewrite start_all_tasks. intros Hrun.
  destruct (await_all_sound urls w0 _ _ _ _ _ (inv_started env this timestamp urls w0) Hrun)
    as (-> & st' & [Hurls Hpage Hfresh _ _ _ _ Hputs Hstore] & Hfin).
  split; [done|]. split; [done|]. split.
  { by rewrite Hfresh, finished_pages, Hurls. }
  split.
  { by rewrite Hputs, finished_puts, Hurls. }
  intros url Hin. rewrite <- Hurls in Hin.
  apply list_elem_of_In, list_elem_of_lookup in Hin as [i Hi].
  rewrite list_lookup_fmap in Hi.
  destruct (st' !! i) as [[u g]|] eqn:Hst; simpl in Hi; [|done].
  injection Hi as ->.
  apply (Hstore i url g Hst).
  rewrite forallb_forall in Hfin.
  assert (Hg : finished g = true).
  { apply (Hfin (url, g)). apply list_elem_of_In, list_elem_of_lookup. by exists i. }
  by destruct g.
Qed.

Lemma page_tasks_settle (urls : list string) (w0 : ScraperWorld)
    (schedule : list nat) :
  (forall i, i < length urls -> 5 <= count_occ Nat.eq_dec schedule i) ->
  exists w',
    await_all schedule (start_all (map (snapshotTaskA env this timestamp) urls) w0)
    = Some (Returned tt, w').
Proof using no_fault.
  intros Hturns. rewrite start_all_tasks. apply await_all_live.
  intros i [url g] Hi. change (map ?f urls) with (f <$> urls) in Hi.
  rewrite list_lookup_fmap in Hi.
  destruct (urls !! i) as [u|] eqn:Hu; simpl in Hi; [|done].
  injection Hi as <- <-. simpl. apply Hturns. by eapply lookup_lt_Some.
Qed.

End PageTasksSettle.

(** ** The audit trail and the whole run, whatever the schedule *)

Section PageTasksRun.
Context {Lecture : Type}.
Variable env : ScraperEnv Lecture.
Variable this : Scraper.
Hypothesis no_fault : forall c, scraper_throws env c = None.

(** C4, as the code has it.  When no call fails, whatever the order in
    which the concurrent page tasks take their turns: when
    [savePageSnapshots] returns it has completed, and [put] has been called
    once for every discovered URL (the calls in an order that depends on
    the schedule) under the key [<timestamp>_<last 4 characters of the
    URL>] with the serialised result of the collector on the content of the
    lecture page, not the raw content; the store then holds, under the key
    of every URL, what was written for a URL of that key.  And it does
    return as soon as the schedule gives every task its five turns. *)
Theorem savePageSnapshotsA_persists_collected (w : ScraperWorld) (p : nat) :
  this_page w = Some p ->
  let urls :=
    page_attributes env (default "" (page_url w !! p)) LECTURE_URL "href" in
  (forall schedule r w',
     savePageSnapshotsA env this schedule w = Some (r, w') ->
     r = Returned tt
     /\ Permutation (audit_puts w')
          (audit_puts w
           ++ map (fun url => (snapshot_key (Date_now env) url,
                               stringify_meetings env
                                 (collect env
                                    (page_content env (_lmsUrl this +:+ url)))))
                  urls)
     /\ (forall url, In url urls ->
           exists url', In url' urls
             /\ snapshot_key (Date_now env) url' = snapshot_key (Date_now env) url
             /\ audit w' !! snapshot_key (Date_now env) url
                = Some (stringify_meetings env
                          (collect env
                             (page_content env (_lmsUrl this +:+ url'))))))
  /\ (forall schedule,
        (forall i, i < length urls -> 5 <= count_occ Nat.eq_dec schedule i) ->
        exists w', savePageSnapshotsA env this schedule w = Some (Returned tt, w')).
Proof using no_fault.
  intros Hpage urls.
  unfold savePageSnapshotsA. rewrite Hpage.
  unfold page_getAttributesFromElements. rewrite (scall_run env no_fault). simpl.
  fold urls. split.
  - intros schedule r w' Hrun.
    destruct (page_tasks_settled env this (Date_now env) no_fault _ _ _ _ _ Hrun)
      as (-> & _ & _ & Hputs & Hstore).
    split; [done|]. split; [|exact Hstore].
    rewrite Hputs, audit_puts_app. simpl. by rewrite app_nil_r.
  - intros schedule Hturns.
    by apply (page_tasks_settle env this (Date_now env) no_fault).
Qed.

(** X19.  A whole run from a Scraper without a page in which no call fails,
    whatever the order in which the concurrent page tasks take their turns:
    when it returns it has completed; the links are read from the page
    visited at the LMS URL; [put] has been called once per link with its
    key and its collected meetings (in an order that depends on the
    schedule) and for nothing else; two pages and one per link have been
    opened; the last call closes the browser and the page handle is
    cleared.  And it does return as soon as the schedule gives every page
    task its five turns. *)
Theorem scrapeA_success (w : ScraperWorld) :
  this_page w = None ->
  let urls := page_attributes env (_lmsUrl this) LECTURE_URL "href" in
  (forall schedule r w',
     scrapeA env this schedule w = Some (r, w') ->
     r = Returned tt
     /\ this_page w' = None
     /\ Permutation (audit_puts w')
          (audit_puts w
           ++ map (fun url => (snapshot_key (Date_now env) url,
                               stringify_meetings env
                                 (collect env
                                    (page_content env (_lmsUrl this +:+ url)))))
                  urls)
     /\ fresh_page w' = fresh_page w + 2 + length urls
     /\ last (scraper_calls w') = Some BrowserClose)
  /\ (forall schedule,
        (forall i, i < length urls -> 5 <= count_occ Nat.eq_dec schedule i) ->
        exists w', scrapeA env this schedule w = Some (Returned tt, w')).
Proof using no_fault.
  intros Hpage urls.
  unfold scrapeA, bind, scraper_logger_info, srecord. simpl.
  rewrite (init_ok env no_fault) by done. simpl.
  rewrite (login_ok env this no_fault _ (fresh_page w)) by done. simpl.
  rewrite (goToLMS_ok env this no_fault _ (fresh_page w)) by done. simpl.
  unfold savePageSnapshotsA. simpl.
  unfold page_getAttributesFromElements. rewrite (scall_run env no_fault). simpl.
  rewrite lookup_insert_eq. simpl. fold urls.
  match goal with |- context [start_all _ ?w1] => set (w0 := w1) end.
  assert (Hputs0 : audit_puts w0 = audit_puts w).
  { unfold w0. rewrite <- !app_assoc, audit_puts_app. simpl. by rewrite app_nil_r. }
  split.
  - intros schedule r w' Hrun.
    destruct (await_all schedule _) as [[[[]|e] w2]|] eqn:Hall; try discriminate.
    + destruct (page_tasks_settled env this (Date_now env) no_fault _ _ _ _ _ Hall)
        as (_ & Htp & Hfresh & Hputs & _).
      unfold cleanUp, bind, browser_close, set_this_page in Hrun.
      rewrite (scall_run env no_fault) in Hrun. simpl in Hrun.
      injection Hrun as <- <-. simpl.
      split; [done|]. split; [done|]. split.
      { rewrite <- !app_assoc, audit_puts_app. simpl.
        by rewrite app_nil_r, Hputs, Hputs0. }
      split; [rewrite Hfresh; simpl; lia|].
      apply last_snoc.
    + by destruct (page_tasks_settled env this (Date_now env) no_fault _ _ _ _ _ Hall).
  - intros schedule Hturns.
    destruct (page_tasks_settle env this (Date_now env) no_fault urls w0 schedule Hturns)
      as [w2 ->].
    unfold cleanUp, bind, browser_close, set_this_page.
    rewrite (scall_run env no_fault). simpl. by eexists.
Qed.

End PageTasksRun.

(** The LMS with two lecture links that share a key: under every schedule
    that lets the step return, both snapshots have been put, in some
    order, and the store keeps one of the two; the schedule that runs the
    first page task to its end and then the second lets the step return. *)
Lemma two_links_under_every_schedule :
  this_page lms_landing = Some 1
  /\ (forall schedule r w',
        savePageSnapshotsA lms_env_colliding lms_scraper schedule lms_landing = Some (r, w') ->
        r = Returned tt
        /\ Permutation (audit_puts w')
             [ ("1700000000000_1234", json_meetings [meeting1]);
               ("1700000000000_1234", json_meetings []) ]
        /\ (audit w' !! "1700000000000_1234" = Some (json_meetings [meeting1])
            \/ audit w' !! "1700000000000_1234" = Some (json_meetings [])))
  /\ exists w',
       savePageSnapshotsA lms_env_colliding lms_scraper [0; 0; 0; 0; 0; 1; 1; 1; 1; 1] lms_landing
       = Some (Returned tt, w').
Proof.
  destruct (savePageSnapshotsA_persists_collected lms_env_colliding lms_scraper
              (fun _ => eq_refl) lms_landing 1 eq_refl) as [Hsound Hlive].
  split; [reflexivity|]. split.
  - intros schedule r w' Hrun.
    destruct (Hsound schedule r w' Hrun) as (Hr & Hputs & Hstore).
    split; [exact Hr|]. split; [exact Hputs|].
    destruct (Hstore "/a/view/1234") as (url' & Hin & _ & Hkept); [by left|].
    destruct Hin as [<-|[<-|[]]]; [left | right]; exact Hkept.
  - apply Hlive. intros i Hi.
    destruct i as [|[|i]]; [vm_compute; lia | vm_compute; lia | vm_compute in Hi; lia].
Defined.

(** Two links with the same last four characters, the first page task run
    to its end before the second: the second link's snapshot is the one
    the store keeps. *)
Example colliding_keys_first_task_first :
  exists w',
    savePageSnapshotsA lms_env_colliding lms_scraper
      [0; 0; 0; 0; 0; 1; 1; 1; 1; 1] lms_landing = Some (Returned tt, w')
    /\ audit w' !! "1700000000000_1234" = Some (json_meetings []).
Proof. eexists. split; [by vm_compute | by vm_compute]. Qed.

(** The same two links, the second page task ahead of the first at every
    step: the first link's snapshot is the one the store keeps. *)
Example colliding_keys_second_task_first :
  exists w',
    savePageSnapshotsA lms_env_colliding lms_scraper
      [1; 0; 1; 0; 1; 0; 1; 0; 1; 0] lms_landing = Some (Returned tt, w')
    /\ audit w' !! "1700000000000_1234" = Some (json_meetings [meeting1]).
Proof. eexists. split; [by vm_compute | by vm_compute]. Qed.

(** A schedule that stops before the second page task has finished: the
    step has not returned. *)
Example page_tasks_unfinished :
  savePageSnapshotsA lms_env_colliding lms_scraper
    [0; 0; 0; 0; 0; 1; 1; 1; 1] lms_landing = None.
Proof. by vm_compute. Qed.

(** A whole run on the LMS with two lecture links: under every schedule that lets it
    return, both snapshots have been put, four pages have been opened and
    the browser has been closed; and the schedule that alternates between
    the two page tasks lets it return. *)
Lemma two_links_run_under_every_schedule :
  this_page uninitialized = None
  /\ (forall schedule r w',
        scrapeA lms_env_colliding lms_scraper schedule uninitialized = Some (r, w') ->
        r = Returned tt
        /\ this_page w' = None
        /\ fresh_page w' = fresh_page uninitialized + 2
                           + length (page_attributes lms_env_colliding (_lmsUrl lms_scraper)
                                       LECTURE_URL "href")
        /\ last (scraper_calls w') = Some BrowserClose)
  /\ exists w',
       scrapeA lms_env_colliding lms_scraper [0; 1; 0; 1; 0; 1; 0; 1; 0; 1] uninitialized
       = Some (Returned tt, w').
Proof.
  destruct (scrapeA_success lms_env_colliding lms_scraper (fun _ => eq_refl)
              uninitialized eq_refl) as [Hsound Hlive].
  split; [reflexivity|]. split.
  - intros schedule r w' Hrun.
    destruct (Hsound schedule r w' Hrun) as (Hr & Hpage & _ & Hfresh & Hlast).
    repeat split; assumption.
  - apply Hlive. intros i Hi.
    destruct i as [|[|i]]; [vm_compute; lia | vm_compute; lia | vm_compute in Hi; lia].
Defined.
